(** * OpenVault memory retrieval: [src/retrieval/retrieve.js]

    A shallow embedding of the retrieval and injection pipeline: the POV
    visibility filter, the recency and batch exclusion passes of the automatic
    path, the fallback rules, and the two entry points
    [retrieveAndInjectContext] and [updateInjection] with their effects on the
    collaborators (prompt sink, status, toast, log). *)

From Stdlib Require Import ZArith String Ascii List.
From stdpp Require Import gmap strings list.

Local Open Scope string_scope.
Local Open Scope Z_scope.

(** ** JavaScript values used by the module *)

(** [String.prototype.toLowerCase] is a builtin of the host; the pipeline only
    ever compares its results for equality, so it is kept abstract. *)
Class JsString := { toLowerCase : string → string }.

(** JS truthiness of an optional string: [undefined] and [''] are falsy. *)
Definition truthy_str (o : option string) : bool :=
  match o with
  | Some s => negb (String.eqb s "")
  | None => false
  end.

(** [o || d] on an optional string. *)
Definition or_default (o : option string) (d : string) : string :=
  match o with
  | Some s => if String.eqb s "" then d else s
  | None => d
  end.

(** [arr.includes(x)] on an array of strings. *)
Definition includes (arr : list string) (x : string) : bool :=
  existsb (String.eqb x) arr.

(** [arr?.some(f)]: an absent array gives [undefined], which is falsy. *)
Definition opt_some {A} (arr : option (list A)) (f : A → bool) : bool :=
  match arr with
  | Some l => existsb f l
  | None => false
  end.

(** [arr.slice(-k)]: the last [k] elements, the whole array when shorter. *)
Definition slice_last {A} (k : nat) (arr : list A) : list A :=
  drop (length arr - k)%nat arr.

(** [arr.map((m, idx) => idx)]. *)
Definition indices {A} (arr : list A) : list Z :=
  imap (λ idx _, Z.of_nat idx) arr.

(** ** Data model *)

Record Memory := {
  id : string;
  summary : option string;
  witnesses : option (list string);
  characters_involved : option (list string);
  is_secret : bool;
  message_ids : option (list Z);
  batch_id : option string;
}.

Record CharacterState := {
  known_events : option (list string);
  current_emotion : option string;
  emotion_from_messages : option (Z * Z);
}.

(** The object returned by [getOpenVaultData()], read at [MEMORIES_KEY],
    [CHARACTERS_KEY] and [LAST_BATCH_KEY]. *)
Record OpenVaultData := {
  memories_of : option (list Memory);
  characters_of : option (gmap string CharacterState);
  last_batch_of : option string;
}.

Record ChatMessage := {
  is_system : bool;
  mes : string;
}.

(** ** Visibility filter (lines 73-94 and 209-227) *)

(** [data[CHARACTERS_KEY]?.[charName]] *)
Definition charStateOf (data : OpenVaultData) (charName : string)
  : option CharacterState :=
  match characters_of data with
  | Some chars => chars !! charName
  | None => None
  end.

(** Body of the outer [for (const charName of povCharacters)] loop. *)
Definition addKnownEvents (data : OpenVaultData) (acc : gset string)
  (charName : string) : gset string :=
  match charStateOf data charName with
  | Some charState =>
      match known_events charState with
      | Some evs => foldl (λ s eventId, s ∪ {[eventId]}) acc evs
      | None => acc
      end
  | None => acc
  end.

Definition knownEventIds (data : OpenVaultData) (povCharacters : list string)
  : gset string :=
  foldl (addKnownEvents data) ∅ povCharacters.

Section Visibility.
Context `{JsString}.

(** [povCharacters.map(c => c.toLowerCase())] *)
Definition povCharactersLower (povCharacters : list string) : list string :=
  map toLowerCase povCharacters.

(** The callback of [memories.filter(m => ...)]. *)
Definition isAccessible (povLower : list string) (known : gset string)
  (m : Memory) : bool :=
  if opt_some (witnesses m) (λ w, includes povLower (toLowerCase w))
  then true
  else if negb (is_secret m) &&
          opt_some (characters_involved m)
                   (λ c, includes povLower (toLowerCase c))
  then true
  else if bool_decide (id m ∈ known) then true
  else false.

Definition accessibleMemories (data : OpenVaultData)
  (povCharacters : list string) (memories : list Memory) : list Memory :=
  List.filter
    (isAccessible (povCharactersLower povCharacters)
                  (knownEventIds data povCharacters))
    memories.

End Visibility.

(** ** Exclusion passes of the automatic path (lines 229-254) *)

(** [new Set(context.chat.map((m, idx) => idx).slice(-10))] *)
Definition recentMessageIds (chat : list ChatMessage) : gset Z :=
  list_to_set (slice_last 10 (indices chat)).

(** The callback of [accessibleMemories.filter(m => ...)], line 236. *)
Definition isNonRecent (recent : gset Z) (m : Memory) : bool :=
  match message_ids m with
  | None => true
  | Some ids =>
      if (length ids =? 0)%nat then true
      else
        let allSourcesRecent := forallb (λ i, bool_decide (i ∈ recent)) ids in
        if allSourcesRecent then false else true
  end.

Definition nonRecentMemories (chat : list ChatMessage)
  (accessible : list Memory) : list Memory :=
  List.filter (isNonRecent (recentMessageIds chat)) accessible.

(** [m.batch_id === lastBatchId] on optional strings. *)
Definition strict_eq (a b : option string) : bool := bool_decide (a = b).

(** The callback of [nonRecentMemories.filter(m => ...)], line 248. *)
Definition isNonBatch (lastBatchId : option string) (m : Memory) : bool :=
  if truthy_str lastBatchId && strict_eq (batch_id m) lastBatchId
  then false else true.

Definition nonBatchMemories (lastBatchId : option string)
  (nonRecent : list Memory) : list Memory :=
  List.filter (isNonBatch lastBatchId) nonRecent.

(** ** Fallbacks (lines 98-103 and 258-263) *)

(** [filtered.length === 0 && memories.length > 0] *)
Definition tooStrict (filtered memories : list Memory) : bool :=
  (length filtered =? 0)%nat && (0 <? length memories)%nat.

(** [let memoriesToUse = filtered; if (...) memoriesToUse = memories;] *)
Definition orAllMemories (filtered memories : list Memory) : list Memory :=
  if tooStrict filtered memories then memories else filtered.

Section Candidates.
Context `{JsString}.

(** [memoriesToUse] of [retrieveAndInjectContext]. *)
Definition memoriesToUse_retrieve (data : OpenVaultData)
  (povCharacters : list string) (memories : list Memory) : list Memory :=
  orAllMemories (accessibleMemories data povCharacters memories) memories.

(** [memoriesToUse] of [updateInjection]. *)
Definition memoriesToUse_update (data : OpenVaultData)
  (chat : list ChatMessage) (povCharacters : list string)
  (memories : list Memory) : list Memory :=
  let accessible := accessibleMemories data povCharacters memories in
  let nonRecent := nonRecentMemories chat accessible in
  let nonBatch := nonBatchMemories (last_batch_of data) nonRecent in
  orAllMemories nonBatch memories.

End Candidates.

(** ** Effects: collaborators, trace and exceptions *)

Definition Exn := string.

(** Result of a collaborator call: a value, or a thrown exception (for the
    awaited selector: a rejected promise). *)
Inductive Outcome (A : Type) : Type :=
  | Val (a : A)
  | Throw (e : Exn).
Arguments Val {A} a.
Arguments Throw {A} e.

Inductive Status := retrieving | ready | error.

(** The messages handed to [log]; template literals keep their parameters. *)
Inductive LogMsg :=
  | Log (text : string)
  | LogPOVFilter (isGroup : bool) (characters : list string)
                 (total accessible : nat)
  | LogInjected (n : nat)
  | LogExcludingRecent (m : Memory)
  | LogExcludingBatch (m : Memory)
  | LogRetrieval (accessible afterRecent afterBatch : nat)
  | LogInjectionUpdated (n : nat).

(** What a run does to the outside, in program order. *)
Inductive Event :=
  | EvLog (msg : LogMsg)
  | EvSetStatus (s : Status)
  | EvSetPrompt (text : string)
  | EvSelect (candidates : list Memory) (recentMessages : string)
             (primaryCharacter : option string)
             (activeCharacters : list string) (maxCount : Z)
  | EvToast (kind : string) (count : nat)
  | EvConsoleError (e : Exn).

(** A computation: the events it performed, and how it ended. *)
Definition M (A : Type) : Type := list Event * Outcome A.

Definition M_ret {A} (a : A) : M A := ([], Val a).

Definition M_bind {A B} (k : A → M B) (m : M A) : M B :=
  match snd m with
  | Val a => ((fst m ++ fst (k a))%list, snd (k a))
  | Throw e => (fst m, Throw e)
  end.

#[export] Instance M_mret : MRet M := @M_ret.
#[export] Instance M_mbind : MBind M := @M_bind.

Definition emit (ev : Event) : M unit := ([ev], Val tt).
Definition emits (evs : list Event) : M unit := (evs, Val tt).
Definition lift {A} (r : Outcome A) : M A := ([], r).

(** [try { body } catch (e) { handler e }] *)
Definition try_catch {A} (body : M A) (handler : Exn → M A) : M A :=
  match snd body with
  | Val a => body
  | Throw e => ((fst body ++ fst (handler e))%list, snd (handler e))
  end.

Definition trace {A} (m : M A) : list Event := fst m.
Definition outcome {A} (m : M A) : Outcome A := snd m.

(** The texts the injection sink was invoked with. *)
Definition promptCalls (t : list Event) : list string :=
  omap (λ ev, match ev with EvSetPrompt text => Some text | _ => None end) t.

(** The statuses set, in order. *)
Definition statusCalls (t : list Event) : list Status :=
  omap (λ ev, match ev with EvSetStatus s => Some s | _ => None end) t.

Record Settings := {
  enabled : bool;
  automaticMode : bool;
  maxMemoriesPerRetrieval : Z;
  tokenBudget : Z;
}.

(** The fields of [getContext()] the module reads. *)
Record SessionContext := {
  chat : option (list ChatMessage);
  name1 : option string;
  name2 : option string;
}.

Record POVContext := {
  povCharacters : list string;
  isGroupChat : bool;
}.

Record EmotionalInfo := {
  emotion : string;
  fromMessages : option (Z * Z);
}.

(** Opaque to this module: produced by [getRelationshipContext], consumed by
    [formatContextForInjection]. *)
Definition RelationshipContext := string.

(** The imports of the module. Settings, session and store are read as
    values; the stages called after the store checks may throw. [log],
    [setStatus], [showToast] and [console.error] only report and are
    recorded in the trace. *)
Record Env := {
  extension_settings : Settings;
  getContext : SessionContext;
  getOpenVaultData : option OpenVaultData;
  getActiveCharacters : Outcome (list string);
  getPOVContext : Outcome POVContext;
  selectRelevantMemories :
    list Memory → string → option string → list string → Z →
    Outcome (option (list Memory));
  getRelationshipContext :
    OpenVaultData → option string → list string → Outcome RelationshipContext;
  formatContextForInjection :
    list Memory → RelationshipContext → EmotionalInfo → option string → Z →
    Outcome string;
  safeSetExtensionPrompt : string → Outcome bool;
}.

Definition log (msg : LogMsg) : M unit := emit (EvLog msg).
Definition setStatus (s : Status) : M unit := emit (EvSetStatus s).
Definition showToast (kind : string) (count : nat) : M unit :=
  emit (EvToast kind count).
Definition console_error (e : Exn) : M unit := emit (EvConsoleError e).

(** A call of the injection sink: recorded, then it returns or throws. *)
Definition setPrompt (env : Env) (text : string) : M bool :=
  emit (EvSetPrompt text);; lift (safeSetExtensionPrompt env text).

(** A call of the relevance selector, awaited. *)
Definition select (env : Env) (candidates : list Memory)
  (recentMessages : string) (primaryCharacter : option string)
  (activeCharacters : list string) (maxCount : Z)
  : M (option (list Memory)) :=
  emit (EvSelect candidates recentMessages primaryCharacter
                 activeCharacters maxCount);;
  lift (selectRelevantMemories env candidates recentMessages
          primaryCharacter activeCharacters maxCount).

(** ** Entry points *)

Definition newline : string := String "010"%char EmptyString.

(** [chat.filter(m => !m.is_system).map(m => m.mes).join('\n')] *)
Definition visibleChatText (chat : list ChatMessage) : string :=
  String.concat newline
    (map mes (List.filter (λ m, negb (is_system m)) chat)).

(** [recentMessages] of [updateInjection] once the pending user message, when
    there is one, has been appended (lines 274-283). *)
Definition recentMessagesWith (chat : list ChatMessage)
  (pendingUserMessage : string) : string :=
  if String.eqb pendingUserMessage "" then visibleChatText chat
  else visibleChatText chat ++ newline ++ newline ++
       "[User is about to say]: " ++ pendingUserMessage.

(** [!chat || chat.length === 0] *)
Definition noChat (chat : option (list ChatMessage)) : bool :=
  match chat with
  | Some c => (length c =? 0)%nat
  | None => true
  end.

(** An [undefined] name used as a property key reads the key ['undefined']. *)
Definition propertyKey (name : option string) : string :=
  default "undefined" name.

(** [{ emotion: st?.current_emotion || 'neutral',
       fromMessages: st?.emotion_from_messages || null }]
    for [st = data[CHARACTERS_KEY]?.[primaryCharacter]]. *)
Definition emotionalInfoOf (data : OpenVaultData)
  (primaryCharacter : option string) : EmotionalInfo :=
  let primaryCharState := charStateOf data (propertyKey primaryCharacter) in
  {| emotion := or_default (primaryCharState ≫= current_emotion) "neutral";
     fromMessages := primaryCharState ≫= emotion_from_messages |}.

(** [isGroupChat ? povCharacters[0] : context.name2] *)
Definition primaryCharacterOf (pov : POVContext) (context : SessionContext)
  : option string :=
  if isGroupChat pov then head (povCharacters pov) else name2 context.

(** [isGroupChat ? primaryCharacter : 'Scene'] *)
Definition headerNameOf (pov : POVContext) (primaryCharacter : option string)
  : option string :=
  if isGroupChat pov then primaryCharacter else Some "Scene".

(** [injectContext], lines 19-31. *)
Definition injectContext (env : Env) (contextText : string) : M unit :=
  if String.eqb contextText "" then
    setPrompt env "";; mret tt
  else
    ok ← setPrompt env contextText;
    if ok : bool then log (Log "Context injected into prompt")
    else log (Log "Failed to inject context").

Record RetrievalResult := {
  memories : list Memory;
  context : string;
}.

Section EntryPoints.
Context `{JsString}.

(** The [try] block of [retrieveAndInjectContext], lines 67-164. *)
Definition retrieveBody (env : Env) (settings : Settings)
  (context : SessionContext) (chat : list ChatMessage)
  (data : OpenVaultData) (memories : list Memory)
  : M (option RetrievalResult) :=
  activeCharacters ← lift (getActiveCharacters env);
  pov ← lift (getPOVContext env);
  let accessible := accessibleMemories data (povCharacters pov) memories in
  log (LogPOVFilter (isGroupChat pov) (povCharacters pov)
                    (length memories) (length accessible));;
  (if tooStrict accessible memories
   then log (Log "POV filter returned 0 results, using all memories as fallback")
   else mret tt);;
  let memoriesToUse := orAllMemories accessible memories in
  if (length memoriesToUse =? 0)%nat then
    log (Log "No memories available");;
    setStatus ready;;
    mret None
  else
    let primaryCharacter := primaryCharacterOf pov context in
    let recentMessages := visibleChatText chat in
    relevantMemories ← select env memoriesToUse recentMessages
                          primaryCharacter activeCharacters
                          (maxMemoriesPerRetrieval settings);
    match relevantMemories with
    | None | Some [] =>
        log (Log "No relevant memories found");;
        setStatus ready;;
        mret None
    | Some relevant =>
        relationshipContext ←
          lift (getRelationshipContext env data primaryCharacter
                  activeCharacters);
        let emotionalInfo := emotionalInfoOf data primaryCharacter in
        let headerName := headerNameOf pov primaryCharacter in
        formattedContext ←
          lift (formatContextForInjection env relevant relationshipContext
                  emotionalInfo headerName (tokenBudget settings));
        (if String.eqb formattedContext "" then mret tt
         else
           injectContext env formattedContext;;
           log (LogInjected (length relevant));;
           showToast "success" (length relevant));;
        setStatus ready;;
        mret (Some {| memories := relevant; context := formattedContext |})
    end.

(** [retrieveAndInjectContext], lines 37-170. *)
Definition retrieveAndInjectContext (env : Env) : M (option RetrievalResult) :=
  let settings := extension_settings env in
  if negb (enabled settings) then
    log (Log "OpenVault disabled, skipping retrieval");; mret None
  else
    let context := getContext env in
    if noChat (chat context) then
      log (Log "No chat to retrieve context for");; mret None
    else
      match getOpenVaultData env with
      | None => log (Log "No chat context available");; mret None
      | Some data =>
          let memories := default [] (memories_of data) in
          if (length memories =? 0)%nat then
            log (Log "No memories stored yet");; mret None
          else
            setStatus retrieving;;
            try_catch
              (retrieveBody env settings context (default [] (chat context))
                 data memories)
              (λ e, console_error e;; setStatus error;; mret None)
      end.

(** [updateInjection] after the store checks, lines 204-322. *)
Definition updateBody (env : Env) (settings : Settings)
  (context : SessionContext) (chat : list ChatMessage)
  (data : OpenVaultData) (memories : list Memory)
  (pendingUserMessage : string) : M unit :=
  activeCharacters ← lift (getActiveCharacters env);
  pov ← lift (getPOVContext env);
  let accessible := accessibleMemories data (povCharacters pov) memories in
  let recent := recentMessageIds chat in
  let nonRecent := nonRecentMemories chat accessible in
  emits (map (λ m, EvLog (LogExcludingRecent m))
           (List.filter (λ m, negb (isNonRecent recent m)) accessible));;
  let lastBatchId := last_batch_of data in
  let nonBatch := nonBatchMemories lastBatchId nonRecent in
  emits (map (λ m, EvLog (LogExcludingBatch m))
           (List.filter (λ m, negb (isNonBatch lastBatchId m)) nonRecent));;
  log (LogRetrieval (length accessible) (length nonRecent)
                    (length nonBatch));;
  (if tooStrict nonBatch memories
   then log (Log "Injection: All memories filtered out (POV, recency, or batch), using all memories as fallback")
   else mret tt);;
  let memoriesToUse := orAllMemories nonBatch memories in
  if (length memoriesToUse =? 0)%nat then
    setPrompt env "";; mret tt
  else
    let primaryCharacter := primaryCharacterOf pov context in
    let recentMessages := recentMessagesWith chat pendingUserMessage in
    (if String.eqb pendingUserMessage "" then mret tt
     else log (Log "Including pending user message in retrieval context"));;
    relevantMemories ← select env memoriesToUse recentMessages
                          primaryCharacter activeCharacters
                          (maxMemoriesPerRetrieval settings);
    match relevantMemories with
    | None | Some [] => setPrompt env "";; mret tt
    | Some relevant =>
        relationshipContext ←
          lift (getRelationshipContext env data primaryCharacter
                  activeCharacters);
        let emotionalInfo := emotionalInfoOf data primaryCharacter in
        let headerName := headerNameOf pov primaryCharacter in
        formattedContext ←
          lift (formatContextForInjection env relevant relationshipContext
                  emotionalInfo headerName (tokenBudget settings));
        if String.eqb formattedContext "" then mret tt
        else
          injectContext env formattedContext;;
          log (LogInjectionUpdated (length relevant))
    end.

(** [updateInjection], lines 177-323. *)
Definition updateInjection (env : Env) (pendingUserMessage : string)
  : M unit :=
  let settings := extension_settings env in
  if negb (enabled settings) || negb (automaticMode settings) then
    setPrompt env "";; mret tt
  else
    let context := getContext env in
    if noChat (chat context) then
      setPrompt env "";; mret tt
    else
      match getOpenVaultData env with
      | None => setPrompt env "";; mret tt
      | Some data =>
          let memories := default [] (memories_of data) in
          if (length memories =? 0)%nat then
            setPrompt env "";; mret tt
          else
            updateBody env settings context (default [] (chat context))
              data memories pendingUserMessage
      end.

End EntryPoints.

(** ** The vocabulary of the specification *)

Section Vocabulary.
Context `{JsString}.

(** Two names match case-insensitively. *)
Definition sameName (a b : string) : Prop := toLowerCase a = toLowerCase b.

(** Some POV name matches an entry of [m.witnesses]. *)
Definition witnessedByPOV (povs : list string) (m : Memory) : Prop :=
  ∃ ws p w, witnesses m = Some ws ∧ p ∈ povs ∧ w ∈ ws ∧ sameName p w.

(** Some POV name matches an entry of [m.characters_involved]. *)
Definition involvesPOV (povs : list string) (m : Memory) : Prop :=
  ∃ cs p c, characters_involved m = Some cs ∧ p ∈ povs ∧ c ∈ cs ∧
            sameName p c.

(** [m.id] is in the [known_events] of some POV character. *)
Definition knownToPOV (data : OpenVaultData) (povs : list string)
  (m : Memory) : Prop :=
  ∃ p st evs, p ∈ povs ∧ charStateOf data p = Some st ∧
              known_events st = Some evs ∧ id m ∈ evs.

(** The three-way disjunction of the visibility rule. *)
Definition visibleToPOV (data : OpenVaultData) (povs : list string)
  (m : Memory) : Prop :=
  witnessedByPOV povs m ∨
  (is_secret m = false ∧ involvesPOV povs m) ∨
  knownToPOV data povs m.

(** The arguments of the selector call of the on-demand path. *)
Definition retrieveSelection (env : Env) (data : OpenVaultData)
  (pov : POVContext) (active : list string)
  : Outcome (option (list Memory)) :=
  selectRelevantMemories env
    (memoriesToUse_retrieve data (povCharacters pov)
       (default [] (memories_of data)))
    (visibleChatText (default [] (chat (getContext env))))
    (primaryCharacterOf pov (getContext env)) active
    (maxMemoriesPerRetrieval (extension_settings env)).

(** The arguments of the selector call of the automatic path. *)
Definition updateSelection (env : Env) (pending : string)
  (data : OpenVaultData) (pov : POVContext) (active : list string)
  : Outcome (option (list Memory)) :=
  selectRelevantMemories env
    (memoriesToUse_update data (default [] (chat (getContext env)))
       (povCharacters pov) (default [] (memories_of data)))
    (recentMessagesWith (default [] (chat (getContext env))) pending)
    (primaryCharacterOf pov (getContext env)) active
    (maxMemoriesPerRetrieval (extension_settings env)).

(** The short-circuit exits of [retrieveAndInjectContext]: lines 39, 47, 53,
    59, 105 and 129. *)
Inductive retrieveShortCircuit (env : Env) : Prop :=
  | retrieve_disabled :
      enabled (extension_settings env) = false →
      retrieveShortCircuit env
  | retrieve_no_chat :
      noChat (chat (getContext env)) = true →
      retrieveShortCircuit env
  | retrieve_no_store :
      getOpenVaultData env = None →
      retrieveShortCircuit env
  | retrieve_no_memories data :
      getOpenVaultData env = Some data →
      default [] (memories_of data) = [] →
      retrieveShortCircuit env
  | retrieve_no_candidates data pov :
      getOpenVaultData env = Some data →
      getPOVContext env = Val pov →
      memoriesToUse_retrieve data (povCharacters pov)
        (default [] (memories_of data)) = [] →
      retrieveShortCircuit env
  | retrieve_nothing_relevant data pov active r :
      getOpenVaultData env = Some data →
      getActiveCharacters env = Val active →
      getPOVContext env = Val pov →
      retrieveSelection env data pov active = Val r →
      r = None ∨ r = Some [] →
      retrieveShortCircuit env.

(** A stage of the [try] block of [retrieveAndInjectContext] throws [e],
    every stage before it having returned: the two accessors, the awaited
    selector, the relationship summarizer, the formatter, the sink. *)
Inductive retrieveStageThrows (env : Env) (data : OpenVaultData) (e : Exn)
  : Prop :=
  | throws_active :
      getActiveCharacters env = Throw e →
      retrieveStageThrows env data e
  | throws_pov active :
      getActiveCharacters env = Val active →
      getPOVContext env = Throw e →
      retrieveStageThrows env data e
  | throws_select active pov :
      getActiveCharacters env = Val active →
      getPOVContext env = Val pov →
      retrieveSelection env data pov active = Throw e →
      retrieveStageThrows env data e
  | throws_relationship active pov relevant :
      getActiveCharacters env = Val active →
      getPOVContext env = Val pov →
      retrieveSelection env data pov active = Val (Some relevant) →
      relevant ≠ [] →
      getRelationshipContext env data
        (primaryCharacterOf pov (getContext env)) active = Throw e →
      retrieveStageThrows env data e
  | throws_format active pov relevant rel :
      getActiveCharacters env = Val active →
      getPOVContext env = Val pov →
      retrieveSelection env data pov active = Val (Some relevant) →
      relevant ≠ [] →
      getRelationshipContext env data
        (primaryCharacterOf pov (getContext env)) active = Val rel →
      formatContextForInjection env relevant rel
        (emotionalInfoOf data (primaryCharacterOf pov (getContext env)))
        (headerNameOf pov (primaryCharacterOf pov (getContext env)))
        (tokenBudget (extension_settings env)) = Throw e →
      retrieveStageThrows env data e
  | throws_inject active pov relevant rel text :
      getActiveCharacters env = Val active →
      getPOVContext env = Val pov →
      retrieveSelection env data pov active = Val (Some relevant) →
      relevant ≠ [] →
      getRelationshipContext env data
        (primaryCharacterOf pov (getContext env)) active = Val rel →
      formatContextForInjection env relevant rel
        (emotionalInfoOf data (primaryCharacterOf pov (getContext env)))
        (headerNameOf pov (primaryCharacterOf pov (getContext env)))
        (tokenBudget (extension_settings env)) = Val text →
      text ≠ "" →
      safeSetExtensionPrompt env text = Throw e →
      retrieveStageThrows env data e.

(** The short-circuit exits of [updateInjection] that call the sink: lines
    181, 187, 193, 199, 265 and 294. The last two are reached only once
    [getActiveCharacters] and [getPOVContext] have returned. *)
Inductive updateShortCircuit (env : Env) (pending : string) : Prop :=
  | update_disabled :
      enabled (extension_settings env) = false ∨
      automaticMode (extension_settings env) = false →
      updateShortCircuit env pending
  | update_no_chat :
      noChat (chat (getContext env)) = true →
      updateShortCircuit env pending
  | update_no_store :
      getOpenVaultData env = None →
      updateShortCircuit env pending
  | update_no_memories data :
      getOpenVaultData env = Some data →
      default [] (memories_of data) = [] →
      updateShortCircuit env pending
  | update_no_candidates data pov active :
      getOpenVaultData env = Some data →
      getActiveCharacters env = Val active →
      getPOVContext env = Val pov →
      memoriesToUse_update data (default [] (chat (getContext env)))
        (povCharacters pov) (default [] (memories_of data)) = [] →
      updateShortCircuit env pending
  | update_nothing_relevant data pov active r :
      getOpenVaultData env = Some data →
      getActiveCharacters env = Val active →
      getPOVContext env = Val pov →
      updateSelection env pending data pov active = Val r →
      r = None ∨ r = Some [] →
      updateShortCircuit env pending.

(** The exit of [updateInjection] at line 319: every stage returned, the
    selector kept some memory, and the formatter produced the empty text. *)
Definition updateEmptyFormat (env : Env) (pending : string) : Prop :=
  ∃ data pov active relevant rel,
    enabled (extension_settings env) = true ∧
    automaticMode (extension_settings env) = true ∧
    noChat (chat (getContext env)) = false ∧
    getOpenVaultData env = Some data ∧
    default [] (memories_of data) ≠ [] ∧
    getActiveCharacters env = Val active ∧
    getPOVContext env = Val pov ∧
    updateSelection env pending data pov active = Val (Some relevant) ∧
    relevant ≠ [] ∧
    getRelationshipContext env data
      (primaryCharacterOf pov (getContext env)) active = Val rel ∧
    formatContextForInjection env relevant rel
      (emotionalInfoOf data (primaryCharacterOf pov (getContext env)))
      (headerNameOf pov (primaryCharacterOf pov (getContext env)))
      (tokenBudget (extension_settings env)) = Val "".

End Vocabulary.

(** The chat indices of the last ten messages of a chat of length [n]. *)
Definition inRecentWindow (n : nat) (i : Z) : Prop :=
  0 ≤ i ∧ Z.of_nat n - 10 ≤ i ∧ i < Z.of_nat n.

(** Every source message of [m] is recent, and there is at least one. *)
Definition allSourcesRecent (n : nat) (m : Memory) : Prop :=
  ∃ ids, message_ids m = Some ids ∧ ids ≠ [] ∧
         ∀ i, i ∈ ids → inRecentWindow n i.

(** [lastBatchId] is set (a non-empty string) and [m.batch_id] equals it. *)
Definition fromLastBatch (lastBatchId : option string) (m : Memory) : Prop :=
  ∃ b, lastBatchId = Some b ∧ b ≠ "" ∧ batch_id m = Some b.

(** A run [m] ends in a trace and an outcome satisfying [Q]. *)
Definition wp {A} (m : M A) (Q : list Event → Outcome A → Prop) : Prop :=
  Q (trace m) (outcome m).

(** The toasts shown, in order. *)
Definition toastCalls (t : list Event) : list (string * nat) :=
  omap (λ ev, match ev with
              | EvToast kind count => Some (kind, count)
              | _ => None
              end) t.

(** The candidate lists the selector was called with, in order. *)
Definition selectCalls (t : list Event) : list (list Memory) :=
  omap (λ ev, match ev with
              | EvSelect candidates _ _ _ _ => Some candidates
              | _ => None
              end) t.

(** The messages logged, in order. *)
Definition logCalls (t : list Event) : list LogMsg :=
  omap (λ ev, match ev with EvLog msg => Some msg | _ => None end) t.

(** The exceptions reported on the console, in order. *)
Definition consoleErrors (t : list Event) : list Exn :=
  omap (λ ev, match ev with EvConsoleError e => Some e | _ => None end) t.

Section Reaching.
Context `{JsString}.

(** The on-demand path reaches the formatter: the checks pass, every stage
    before it returns, the selector keeps [relevant], and the formatter
    returns [text]. *)
Definition retrieveFormats (env : Env) (data : OpenVaultData)
  (pov : POVContext) (active : list string) (relevant : list Memory)
  (rel : RelationshipContext) (text : string) : Prop :=
  enabled (extension_settings env) = true ∧
  noChat (chat (getContext env)) = false ∧
  getOpenVaultData env = Some data ∧
  default [] (memories_of data) ≠ [] ∧
  getActiveCharacters env = Val active ∧
  getPOVContext env = Val pov ∧
  retrieveSelection env data pov active = Val (Some relevant) ∧
  relevant ≠ [] ∧
  getRelationshipContext env data
    (primaryCharacterOf pov (getContext env)) active = Val rel ∧
  formatContextForInjection env relevant rel
    (emotionalInfoOf data (primaryCharacterOf pov (getContext env)))
    (headerNameOf pov (primaryCharacterOf pov (getContext env)))
    (tokenBudget (extension_settings env)) = Val text.

(** The same for the automatic path. *)
Definition updateFormats (env : Env) (pending : string)
  (data : OpenVaultData) (pov : POVContext) (active : list string)
  (relevant : list Memory) (rel : RelationshipContext) (text : string)
  : Prop :=
  enabled (extension_settings env) = true ∧
  automaticMode (extension_settings env) = true ∧
  noChat (chat (getContext env)) = false ∧
  getOpenVaultData env = Some data ∧
  default [] (memories_of data) ≠ [] ∧
  getActiveCharacters env = Val active ∧
  getPOVContext env = Val pov ∧
  updateSelection env pending data pov active = Val (Some relevant) ∧
  relevant ≠ [] ∧
  getRelationshipContext env data
    (primaryCharacterOf pov (getContext env)) active = Val rel ∧
  formatContextForInjection env relevant rel
    (emotionalInfoOf data (primaryCharacterOf pov (getContext env)))
    (headerNameOf pov (primaryCharacterOf pov (getContext env)))
    (tokenBudget (extension_settings env)) = Val text.

(** A stage of the automatic path throws [e], every stage before it having
    returned. *)
Inductive updateStageThrows (env : Env) (pending : string)
  (data : OpenVaultData) (e : Exn) : Prop :=
  | update_throws_active :
      getActiveCharacters env = Throw e →
      updateStageThrows env pending data e
  | update_throws_pov active :
      getActiveCharacters env = Val active →
      getPOVContext env = Throw e →
      updateStageThrows env pending data e
  | update_throws_select active pov :
      getActiveCharacters env = Val active →
      getPOVContext env = Val pov →
      updateSelection env pending data pov active = Throw e →
      updateStageThrows env pending data e
  | update_throws_relationship active pov relevant :
      getActiveCharacters env = Val active →
      getPOVContext env = Val pov →
      updateSelection env pending data pov active = Val (Some relevant) →
      relevant ≠ [] →
      getRelationshipContext env data
        (primaryCharacterOf pov (getContext env)) active = Throw e →
      updateStageThrows env pending data e
  | update_throws_format active pov relevant rel :
      getActiveCharacters env = Val active →
      getPOVContext env = Val pov →
      updateSelection env pending data pov active = Val (Some relevant) →
      relevant ≠ [] →
      getRelationshipContext env data
        (primaryCharacterOf pov (getContext env)) active = Val rel →
      formatContextForInjection env relevant rel
        (emotionalInfoOf data (primaryCharacterOf pov (getContext env)))
        (headerNameOf pov (primaryCharacterOf pov (getContext env)))
        (tokenBudget (extension_settings env)) = Throw e →
      updateStageThrows env pending data e
  | update_throws_inject active pov relevant rel text :
      getActiveCharacters env = Val active →
      getPOVContext env = Val pov →
      updateSelection env pending data pov active = Val (Some relevant) →
      relevant ≠ [] →
      getRelationshipContext env data
        (primaryCharacterOf pov (getContext env)) active = Val rel →
      formatContextForInjection env relevant rel
        (emotionalInfoOf data (primaryCharacterOf pov (getContext env)))
        (headerNameOf pov (primaryCharacterOf pov (getContext env)))
        (tokenBudget (extension_settings env)) = Val text →
      text ≠ "" →
      safeSetExtensionPrompt env text = Throw e →
      updateStageThrows env pending data e.

End Reaching.

(** Every source message of [m] is a message of a chat of length [n]. *)
Definition sourcesInChat (n : nat) (m : Memory) : Prop :=
  ∃ ids, message_ids m = Some ids ∧ ids ≠ [] ∧
         ∀ i, i ∈ ids → 0 ≤ i ∧ i < Z.of_nat n.

(** ** A concrete host and store, for the examples *)

(** Lower-casing of the letters A-Z, as the builtin does on ASCII names. *)
Definition lowerAscii (c : ascii) : ascii :=
  let n := nat_of_ascii c in
  if (65 <=? n)%nat && (n <=? 90)%nat then ascii_of_nat (n + 32) else c.

Fixpoint lowerString (s : string) : string :=
  match s with
  | EmptyString => EmptyString
  | String c rest => String (lowerAscii c) (lowerString rest)
  end.

Definition asciiHost : JsString := {| toLowerCase := lowerString |}.

Definition mkMemory (i : string) (ws cs : list string) (secret : bool)
  (mids : list Z) (batch : option string) : Memory :=
  {| id := i; summary := Some i; witnesses := Some ws;
     characters_involved := Some cs; is_secret := secret;
     message_ids := Some mids; batch_id := batch |}.

(** Witnessed by Alice (stored in lower case), taken from message 0. *)
Definition memSeen : Memory :=
  mkMemory "ev-seen" ["alice"] ["alice"; "Bob"] false [0] (Some "batch-1").

(** A secret of Bob's that names Alice as involved. *)
Definition memSecret : Memory :=
  mkMemory "ev-secret" ["Bob"] ["Bob"; "Alice"] true [1] (Some "batch-1").

(** Seen by nobody, named in a [known_events] list. *)
Definition memTold : Memory :=
  mkMemory "ev-told" [] [] true [] None.

Definition stateKnowing (evs : list string) : CharacterState :=
  {| known_events := Some evs; current_emotion := None;
     emotion_from_messages := None |}.

Definition storeOf (mems : list Memory)
  (chars : gmap string CharacterState) (batch : option string)
  : OpenVaultData :=
  {| memories_of := Some mems; characters_of := Some chars;
     last_batch_of := batch |}.

(** A store that files Alice's state under the lower-case key. *)
Definition storeLowerKey : OpenVaultData :=
  storeOf [memTold] {[ "alice" := stateKnowing ["ev-told"] ]} None.

(** A store whose only memory is Bob's secret. *)
Definition storeSecretOnly : OpenVaultData :=
  storeOf [memSecret] ∅ None.

(** Alice saw one memory, during the last messages; the other is Bob's
    secret. *)
Definition storeSeenAndSecret : OpenVaultData :=
  storeOf [memSeen; memSecret] ∅ None.

Definition message (text : string) : ChatMessage :=
  {| is_system := false; mes := text |}.

Definition settingsOn : Settings :=
  {| enabled := true; automaticMode := true;
     maxMemoriesPerRetrieval := 5; tokenBudget := 500 |}.

Definition povAlice : POVContext :=
  {| povCharacters := ["Alice"]; isGroupChat := true |}.

(** A host in which Alice is the only POV character of a group chat; the
    results of the selector, the formatter and the sink are given. *)
Definition envWith (data : OpenVaultData) (msgs : list ChatMessage)
  (selected : list Memory → Outcome (option (list Memory)))
  (formatted : Outcome string) (sink : Outcome bool) : Env :=
  {| extension_settings := settingsOn;
     getContext := {| chat := Some msgs; name1 := Some "User";
                      name2 := Some "Alice" |};
     getOpenVaultData := Some data;
     getActiveCharacters := Val ["Alice"; "Bob"];
     getPOVContext := Val povAlice;
     selectRelevantMemories := λ cands _ _ _ _, selected cands;
     getRelationshipContext := λ _ _ _, Val "";
     formatContextForInjection := λ _ _ _ _ _, formatted;
     safeSetExtensionPrompt := λ _, sink |}.

(** The same host with a selector that keeps every candidate. *)
Definition envOf (data : OpenVaultData) (msgs : list ChatMessage)
  (formatted : Outcome string) (sink : Outcome bool) : Env :=
  envWith data msgs (λ cands, Val (Some cands)) formatted sink.

(** A store with a memory disclosed to Alice. *)
Definition storeScene : OpenVaultData :=
  storeOf [memSeen; memSecret; memTold]
    {[ "Alice" := stateKnowing ["ev-told"] ]} None.

Definition chatOne : list ChatMessage := [message "hi"].
Definition chatTwo : list ChatMessage := [message "hi"; message "hello"].

(** Every stage returns and the sink accepts the text. *)
Definition envScene : Env :=
  envOf storeScene chatOne (Val "[Alice remembers]") (Val true).

(** The formatter returns the empty text. *)
Definition envEmptyFormat : Env :=
  envOf storeScene chatOne (Val "") (Val true).

(** The formatter throws. *)
Definition envFormatterThrows : Env :=
  envOf storeScene chatOne (Throw "format failed") (Val true).

(** The awaited selector rejects. *)
Definition envSelectorThrows : Env :=
  envWith storeScene chatOne (λ _, Throw "scoring failed")
    (Val "[Alice remembers]") (Val true).

(** The sink throws. *)
Definition envSinkThrows : Env :=
  envOf storeScene chatOne (Val "[Alice remembers]") (Throw "sink failed").

(** The selector finds nothing relevant. *)
Definition envNothingRelevant : Env :=
  envWith storeScene chatOne (λ _, Val (Some []))
    (Val "[Alice remembers]") (Val true).

(** The only memory is a secret Alice may not see. *)
Definition envSecretOnly : Env :=
  envOf storeSecretOnly chatOne (Val "[Alice remembers]") (Val true).

(** Alice's only accessible memory comes from the last messages. *)
Definition envSeenAndSecret : Env :=
  envOf storeSeenAndSecret chatTwo (Val "[Alice remembers]") (Val true).

(** The sink reports a failure. *)
Definition envSinkRefuses : Env :=
  envOf storeScene chatOne (Val "[Alice remembers]") (Val false).

(** * Properties *)

(** ** Visibility *)

Lemma includes_true (arr : list string) (x : string) :
  includes arr x = true ↔ x ∈ arr.
Proof.
  unfold includes. rewrite existsb_exists, list_elem_of_In. split.
  - intros (y & Hy & Heq). apply String.eqb_eq in Heq. by subst.
  - intros Hx. exists x. split; [done | apply String.eqb_refl].
Qed.

Lemma elem_of_add_all (evs : list string) (acc : gset string) (e : string) :
  e ∈ foldl (λ s eventId, s ∪ {[eventId]}) acc evs ↔ e ∈ acc ∨ e ∈ evs.
Proof.
  revert acc. induction evs as [|x evs IH]; intros acc; simpl.
  - rewrite elem_of_nil. tauto.
  - rewrite IH, elem_of_union, elem_of_singleton, elem_of_cons. tauto.
Qed.

Lemma elem_of_addKnownEvents data acc p (e : string) :
  e ∈ addKnownEvents data acc p ↔
  e ∈ acc ∨ ∃ st evs, charStateOf data p = Some st ∧
                       known_events st = Some evs ∧ e ∈ evs.
Proof.
  unfold addKnownEvents.
  destruct (charStateOf data p) as [st|].
  - destruct (known_events st) as [evs|] eqn:Hev.
    + rewrite elem_of_add_all. split.
      * intros [?|?]; [by left|right]. by exists st, evs.
      * intros [?|(st' & evs' & [= <-] & Hev' & ?)]; [by left|right].
        congruence.
    + split; [by left|]. intros [?|(st' & evs' & [= <-] & ? & _)]; [done|].
      congruence.
  - split; [by left|]. by intros [?|(? & ? & ? & _)].
Qed.

Lemma elem_of_known_from data povs acc (e : string) :
  e ∈ foldl (addKnownEvents data) acc povs ↔
  e ∈ acc ∨ ∃ p st evs, p ∈ povs ∧ charStateOf data p = Some st ∧
                         known_events st = Some evs ∧ e ∈ evs.
Proof.
  revert acc. induction povs as [|q povs IH]; intros acc; simpl.
  - split; [tauto|]. intros [?|(p & ? & ? & Hp & _)]; [done|].
    by apply elem_of_nil in Hp.
  - rewrite IH, elem_of_addKnownEvents. split.
    + intros [[?|(st & evs & ? & ? & ?)]|(p & st & evs & ? & ?)].
      * by left.
      * right. exists q, st, evs. by rewrite elem_of_cons; auto.
      * right. exists p, st, evs. by rewrite elem_of_cons; auto.
    + intros [?|(p & st & evs & Hp & ? & ? & ?)]; [by auto|].
      apply elem_of_cons in Hp as [->|Hp].
      * left. right. by exists st, evs.
      * right. by exists p, st, evs.
Qed.

Lemma elem_of_knownEventIds data povs (e : string) :
  e ∈ knownEventIds data povs ↔
  ∃ p st evs, p ∈ povs ∧ charStateOf data p = Some st ∧
              known_events st = Some evs ∧ e ∈ evs.
Proof.
  unfold knownEventIds. rewrite elem_of_known_from.
  split; [|by auto]. intros [Hin|?]; [|done]. by apply elem_of_empty in Hin.
Qed.

Section VisibilityFacts.
Context `{JsString}.

Lemma some_includes_lower (names : option (list string)) povs :
  opt_some names (λ w, includes (povCharactersLower povs) (toLowerCase w))
    = true ↔
  ∃ l p w, names = Some l ∧ p ∈ povs ∧ w ∈ l ∧ sameName p w.
Proof.
  destruct names as [l|]; simpl;
    [|split; [done|by intros (? & ? & ? & ? & _)]].
  rewrite existsb_exists. unfold povCharactersLower, sameName. split.
  - intros (w & Hw & Hinc). apply includes_true, list_elem_of_fmap in Hinc.
    destruct Hinc as (p & Heq & Hp). exists l, p, w.
    apply list_elem_of_In in Hw. done.
  - intros (l' & p & w & [= <-] & Hp & Hw & Heq). exists w.
    rewrite <- list_elem_of_In. split; [done|].
    apply includes_true, list_elem_of_fmap. by exists p.
Qed.

Lemma isAccessible_true data povs m :
  isAccessible (povCharactersLower povs) (knownEventIds data povs) m = true ↔
  visibleToPOV data povs m.
Proof.
  unfold isAccessible, visibleToPOV, witnessedByPOV, involvesPOV, knownToPOV.
  rewrite <- !some_includes_lower, <- elem_of_knownEventIds.
  destruct (opt_some (witnesses m) _); [intuition congruence|].
  destruct (is_secret m); simpl.
  - case_bool_decide; intuition congruence.
  - destruct (opt_some (characters_involved m) _); [intuition congruence|].
    case_bool_decide; intuition congruence.
Qed.

(** C1. The visibility filter of both entry points accepts a memory exactly
    when a POV name matches one of its witnesses, or it is not secret and a
    POV name matches one of its involved characters, or its id is in the
    known events of a POV character; each of the three alone suffices. *)
Theorem visibility_filter_iff data povs m :
  (isAccessible (povCharactersLower povs) (knownEventIds data povs) m = true
   ↔ witnessedByPOV povs m ∨
     (is_secret m = false ∧ involvesPOV povs m) ∨
     knownToPOV data povs m) ∧
  (∀ memories, m ∈ accessibleMemories data povs memories ↔
               m ∈ memories ∧ visibleToPOV data povs m) ∧
  (witnessedByPOV povs m →
   isAccessible (povCharactersLower povs) (knownEventIds data povs) m = true) ∧
  (is_secret m = false → involvesPOV povs m →
   isAccessible (povCharactersLower povs) (knownEventIds data povs) m = true) ∧
  (knownToPOV data povs m →
   isAccessible (povCharactersLower povs) (knownEventIds data povs) m = true).
Proof.
  split; [apply isAccessible_true|]. split.
  - intros memories. unfold accessibleMemories.
    by rewrite list_elem_of_In, filter_In, <- list_elem_of_In,
      isAccessible_true.
  - repeat split; intros; apply isAccessible_true; unfold visibleToPOV; auto.
Qed.

(** C2. A secret memory that no POV character witnessed and that is in no POV
    character's known events is rejected by the visibility filter, whether
    or not a POV name appears among its involved characters. *)
Theorem secret_not_visible_by_involvement data povs m :
  is_secret m = true →
  ¬ knownToPOV data povs m →
  ¬ witnessedByPOV povs m →
  isAccessible (povCharactersLower povs) (knownEventIds data povs) m = false ∧
  ∀ memories, m ∉ accessibleMemories data povs memories.
Proof.
  intros Hsecret Hknown Hwit.
  assert (Hno : ¬ visibleToPOV data povs m).
  { intros [?|[[Hs _]|?]]; [done| |done]. congruence. }
  split.
  - destruct (isAccessible _ _ m) eqn:Hacc; [|done].
    by apply isAccessible_true in Hacc.
  - intros memories Hin. unfold accessibleMemories in Hin.
    apply list_elem_of_In, filter_In in Hin as [_ Hacc].
    by apply isAccessible_true in Hacc.
Qed.

Lemma knownEventIds_absent_key data p povs :
  charStateOf data p = None →
  knownEventIds data (p :: povs) = knownEventIds data povs.
Proof.
  intros Hp. unfold knownEventIds. simpl.
  unfold addKnownEvents at 2. by rewrite Hp.
Qed.

(** C10. The known-events union looks each POV name up as an exact key of
    the character-state map: when the store files a character under a key
    [k] that differs from the POV name [p] only in letter case, [p]
    contributes no known events, so a memory disclosed to [k] stays hidden,
    while a witness or involvement entry [k] does match [p]. *)
Theorem known_events_lookup_case_sensitive data p k st evs :
  k ≠ p →
  sameName p k →
  charStateOf data k = Some st →
  known_events st = Some evs →
  charStateOf data p = None →
  knownEventIds data [p] = ∅ ∧
  (∀ povs, knownEventIds data (p :: povs) = knownEventIds data povs) ∧
  (∀ m, id m ∈ evs → witnesses m = None → characters_involved m = None →
        isAccessible (povCharactersLower [p]) (knownEventIds data [p]) m
        = false) ∧
  (∀ m ws known, witnesses m = Some ws → k ∈ ws →
        isAccessible (povCharactersLower [p]) known m = true) ∧
  (∀ m cs known, is_secret m = false → characters_involved m = Some cs →
        k ∈ cs → isAccessible (povCharactersLower [p]) known m = true).
Proof.
  intros _ Hsame _ _ Hp.
  assert (Hempty : knownEventIds data [p] = ∅)
    by (by rewrite knownEventIds_absent_key).
  split; [done|]. split; [by intros; apply knownEventIds_absent_key|].
  assert (Hinc : ∀ names : list string, k ∈ names →
    opt_some (Some names)
      (λ w, includes (povCharactersLower [p]) (toLowerCase w)) = true).
  { intros names Hk. apply some_includes_lower. exists names, p, k.
    split; [done|]. split; [by apply list_elem_of_singleton|done]. }
  repeat split.
  - intros m _ Hw Hc. unfold isAccessible. rewrite Hw, Hc, Hempty. simpl.
    rewrite andb_false_r. by rewrite bool_decide_eq_false_2.
  - intros m ws known Hw Hk. unfold isAccessible. by rewrite Hw, Hinc.
  - intros m cs known Hs Hc Hk. unfold isAccessible.
    rewrite Hs, Hc, Hinc by done. simpl. by destruct (opt_some _ _).
Qed.

End VisibilityFacts.

(** ** Exclusion passes *)

Lemma elem_of_drop_indices {A} (l : list A) (k : nat) (i : Z) :
  i ∈ drop k (indices l) ↔ Z.of_nat k ≤ i ∧ i < Z.of_nat (length l).
Proof.
  unfold indices. rewrite list_elem_of_lookup. split.
  - intros (j & Hj). rewrite lookup_drop, list_lookup_imap in Hj.
    destruct (l !! (k + j)%nat) as [x|] eqn:Hl; [|done].
    apply lookup_lt_Some in Hl. simpl in Hj. injection Hj as <-. lia.
  - intros [Hlo Hhi]. exists (Z.to_nat i - k)%nat.
    rewrite lookup_drop, list_lookup_imap.
    destruct (lookup_lt_is_Some_2 l (k + (Z.to_nat i - k))%nat) as [x Hx];
      [lia|].
    rewrite Hx. simpl. f_equal. lia.
Qed.

Lemma elem_of_recentMessageIds chat (i : Z) :
  i ∈ recentMessageIds chat ↔ inRecentWindow (length chat) i.
Proof.
  unfold recentMessageIds, slice_last, inRecentWindow.
  rewrite elem_of_list_to_set, elem_of_drop_indices.
  replace (length (indices chat)) with (length chat)
    by (unfold indices; by rewrite length_imap).
  lia.
Qed.

Lemma isNonRecent_false chat m :
  isNonRecent (recentMessageIds chat) m = false ↔
  allSourcesRecent (length chat) m.
Proof.
  unfold isNonRecent, allSourcesRecent.
  destruct (message_ids m) as [ids|];
    [|split; [done|by intros (? & ? & _)]].
  destruct ids as [|i ids]; simpl (length _ =? 0)%nat; cbv iota.
  { split; [done|]. by intros (? & [= <-] & ? & _). }
  destruct (forallb _ (i :: ids)) eqn:Hall.
  - split; [|done]. intros _. exists (i :: ids).
    split; [done|]. split; [done|]. intros j Hj. rewrite forallb_forall in Hall.
    apply elem_of_recentMessageIds.
    apply list_elem_of_In, Hall in Hj. by apply bool_decide_eq_true in Hj.
  - split; [done|]. intros (ids' & [= <-] & _ & Hin).
    assert (forallb (λ j, bool_decide (j ∈ recentMessageIds chat)) (i :: ids)
            = true); [|congruence].
    apply forallb_forall. intros j Hj. apply bool_decide_eq_true.
    apply elem_of_recentMessageIds, Hin. by apply list_elem_of_In.
Qed.

Lemma isNonBatch_false lastBatchId m :
  isNonBatch lastBatchId m = false ↔ fromLastBatch lastBatchId m.
Proof.
  unfold isNonBatch, fromLastBatch, truthy_str, strict_eq.
  destruct lastBatchId as [b|]; simpl;
    [|split; [done|by intros (? & ? & _)]].
  destruct (String.eqb_spec b ""); simpl.
  - split; [done|]. intros (? & [= <-] & ? & _). done.
  - case_bool_decide as Heq.
    + split; [|done]. intros _. by exists b.
    + split; [done|]. intros (? & [= <-] & _ & ?). done.
Qed.

Section ExclusionFacts.
Context `{JsString}.

(** C5. A visibility-accepted memory is removed by the exclusion passes of
    the automatic path exactly when all of its (at least one) source messages
    are among the last ten chat indices, or the last batch id is set and is
    the memory's batch id; without message ids, or with one source message
    outside the window, the recency pass keeps it. *)
Theorem exclusion_passes_iff data chat povs memories m :
  m ∈ accessibleMemories data povs memories →
  (m ∉ nonBatchMemories (last_batch_of data)
         (nonRecentMemories chat (accessibleMemories data povs memories))
   ↔ allSourcesRecent (length chat) m ∨
     fromLastBatch (last_batch_of data) m) ∧
  (m ∉ nonRecentMemories chat (accessibleMemories data povs memories)
   ↔ allSourcesRecent (length chat) m) ∧
  (message_ids m = None ∨ message_ids m = Some [] ∨
   (∃ ids i, message_ids m = Some ids ∧ i ∈ ids ∧
             ¬ inRecentWindow (length chat) i) →
   m ∈ nonRecentMemories chat (accessibleMemories data povs memories)).
Proof.
  intros Hacc. unfold nonBatchMemories, nonRecentMemories.
  rewrite <- isNonRecent_false, <- isNonBatch_false.
  rewrite !list_elem_of_In, !filter_In, <- !list_elem_of_In.
  assert (Hkeep : isNonRecent (recentMessageIds chat) m = false →
                  allSourcesRecent (length chat) m)
    by apply isNonRecent_false.
  split; [|split].
  - destruct (isNonRecent _ m), (isNonBatch _ m); intuition congruence.
  - destruct (isNonRecent _ m); intuition congruence.
  - intros Hcase. split; [done|].
    destruct (isNonRecent _ m); [done|].
    destruct (Hkeep eq_refl) as (ids & Hids & Hne & Hall).
    destruct Hcase as [?|[?|(ids' & i & ? & Hi & Hout)]]; [congruence..|].
    destruct Hout. apply Hall. congruence.
Qed.

End ExclusionFacts.

(** ** Reasoning about runs *)

Lemma wp_bind {A B} (m : M A) (k : A → M B) Q :
  wp m (λ t r, match r with
               | Val a => wp (k a) (λ t' r', Q (t ++ t')%list r')
               | Throw e => Q t (Throw e)
               end) →
  wp (m ≫= k) Q.
Proof.
  unfold wp, trace, outcome, mbind, M_mbind, M_bind.
  by destruct m as [t [a|e]].
Qed.

Lemma wp_ret {A} (a : A) (Q : list Event → Outcome A → Prop) :
  Q [] (Val a) → wp (mret a) Q.
Proof. done. Qed.

Lemma wp_emit ev (Q : list Event → Outcome unit → Prop) :
  Q [ev] (Val tt) → wp (emit ev) Q.
Proof. done. Qed.

Lemma wp_emits evs (Q : list Event → Outcome unit → Prop) :
  Q evs (Val tt) → wp (emits evs) Q.
Proof. done. Qed.

Lemma wp_lift {A} (r : Outcome A) (Q : list Event → Outcome A → Prop) :
  Q [] r → wp (lift r) Q.
Proof. done. Qed.

Lemma wp_try {A} (body : M A) (handler : Exn → M A) Q :
  wp body (λ t r, match r with
                  | Val a => Q t (Val a)
                  | Throw e => wp (handler e) (λ t' r', Q (t ++ t')%list r')
                  end) →
  wp (try_catch body handler) Q.
Proof.
  unfold wp, trace, outcome, try_catch.
  by destruct body as [t [a|e]].
Qed.

Lemma wp_any {A} (m : M A) (Q : list Event → Outcome A → Prop) :
  (∀ t r, Q t r) → wp m Q.
Proof. intros HQ. apply HQ. Qed.

Lemma wp_mono {A} (m : M A) (P Q : list Event → Outcome A → Prop) :
  wp m P → (∀ t r, P t r → Q t r) → wp m Q.
Proof. intros HP HPQ. by apply HPQ. Qed.

Lemma wp_setPrompt env text (Q : list Event → Outcome bool → Prop) :
  Q [EvSetPrompt text] (safeSetExtensionPrompt env text) →
  wp (setPrompt env text) Q.
Proof.
  intros HQ. unfold setPrompt. apply wp_bind, wp_emit, wp_lift.
  by rewrite app_nil_r.
Qed.

Lemma wp_select env cands recent primary active maxCount
  (Q : list Event → Outcome (option (list Memory)) → Prop) :
  Q [EvSelect cands recent primary active maxCount]
    (selectRelevantMemories env cands recent primary active maxCount) →
  wp (select env cands recent primary active maxCount) Q.
Proof.
  intros HQ. unfold select. apply wp_bind, wp_emit, wp_lift.
  by rewrite app_nil_r.
Qed.

(** One step through a run. *)
Ltac wp_step :=
  lazymatch goal with
  | |- wp (mret _) _ => apply wp_ret
  | |- wp (emit _) _ => apply wp_emit
  | |- wp (emits _) _ => apply wp_emits
  | |- wp (log _) _ => apply wp_emit
  | |- wp (setStatus _) _ => apply wp_emit
  | |- wp (showToast _ _) _ => apply wp_emit
  | |- wp (console_error _) _ => apply wp_emit
  | |- wp (lift _) _ => apply wp_lift
  | |- wp (setPrompt _ _) _ => apply wp_setPrompt
  | |- wp (select _ _ _ _ _ _) _ => apply wp_select
  | |- wp (try_catch _ _) _ => apply wp_try
  | |- wp (_ ≫= _) _ => apply wp_bind
  end.

Ltac wp_steps := repeat (wp_step; cbv beta).

Lemma promptCalls_app t1 t2 :
  promptCalls (t1 ++ t2) = (promptCalls t1 ++ promptCalls t2)%list.
Proof. apply omap_app. Qed.

Lemma promptCalls_logs {A} (f : A → LogMsg) (l : list A) :
  promptCalls (map (λ x, EvLog (f x)) l) = [].
Proof. induction l; simpl; auto. Qed.

Lemma orAllMemories_nonempty filtered memories :
  memories ≠ [] → orAllMemories filtered memories ≠ [].
Proof.
  unfold orAllMemories, tooStrict. intros Hne.
  destruct filtered; [by destruct memories|done].
Qed.

Lemma orAllMemories_fallback filtered memories :
  filtered = [] → orAllMemories filtered memories = memories.
Proof.
  intros ->. unfold orAllMemories, tooStrict. by destruct memories.
Qed.

Lemma length_eqb_0 {A} (l : list A) : (length l =? 0)%nat = true ↔ l = [].
Proof. destruct l; simpl; split; done. Qed.

(** Whatever the rest of a run does, what was already recorded stays. *)
Ltac wp_rest :=
  repeat first
    [ progress (apply wp_any; intros)
    | match goal with |- match ?x with _ => _ end => destruct x end ].

(** ** Fallbacks *)

Section FallbackFacts.
Context `{JsString}.

Lemma retrieve_calls_selector env c data mems active pov :
  enabled (extension_settings env) = true →
  chat (getContext env) = Some c → c ≠ [] →
  getOpenVaultData env = Some data →
  default [] (memories_of data) = mems → mems ≠ [] →
  getActiveCharacters env = Val active →
  getPOVContext env = Val pov →
  EvSelect (memoriesToUse_retrieve data (povCharacters pov) mems)
           (visibleChatText c) (primaryCharacterOf pov (getContext env))
           active (maxMemoriesPerRetrieval (extension_settings env))
    ∈ trace (retrieveAndInjectContext env).
Proof.
  intros Hen Hchat Hc Hdata Hmems Hne Hact Hpov.
  match goal with |- ?ev ∈ trace ?m => change (wp m (λ t _, ev ∈ t)) end.
  unfold retrieveAndInjectContext.
  rewrite Hen, Hchat, Hdata, Hmems. simpl negb. cbv iota.
  replace (noChat (Some c)) with false by (by destruct c).
  replace (length mems =? 0)%nat with false by (by destruct mems).
  unfold retrieveBody. rewrite Hact, Hpov. wp_steps.
  pose proof (orAllMemories_nonempty
                (accessibleMemories data (povCharacters pov) mems) mems Hne)
    as Hcand.
  destruct (tooStrict _ _); wp_steps.
  all: destruct (length (orAllMemories _ _) =? 0)%nat eqn:Hlen;
    [by apply length_eqb_0 in Hlen|].
  all: wp_steps; wp_rest; unfold memoriesToUse_retrieve; simpl; set_solver.
Qed.

Lemma update_calls_selector env pending c data mems active pov :
  enabled (extension_settings env) = true →
  automaticMode (extension_settings env) = true →
  chat (getContext env) = Some c → c ≠ [] →
  getOpenVaultData env = Some data →
  default [] (memories_of data) = mems → mems ≠ [] →
  getActiveCharacters env = Val active →
  getPOVContext env = Val pov →
  EvSelect (memoriesToUse_update data c (povCharacters pov) mems)
           (recentMessagesWith c pending)
           (primaryCharacterOf pov (getContext env))
           active (maxMemoriesPerRetrieval (extension_settings env))
    ∈ trace (updateInjection env pending).
Proof.
  intros Hen Hauto Hchat Hc Hdata Hmems Hne Hact Hpov.
  match goal with |- ?ev ∈ trace ?m => change (wp m (λ t _, ev ∈ t)) end.
  unfold updateInjection.
  rewrite Hen, Hauto, Hchat, Hdata, Hmems. simpl orb. cbv iota.
  replace (noChat (Some c)) with false by (by destruct c).
  replace (length mems =? 0)%nat with false by (by destruct mems).
  unfold updateBody. rewrite Hact, Hpov. simpl default. wp_steps.
  set (nonBatch := nonBatchMemories _ _).
  pose proof (orAllMemories_nonempty nonBatch mems Hne) as Hcand.
  destruct (tooStrict _ _); wp_steps.
  all: destruct (length (orAllMemories _ _) =? 0)%nat eqn:Hlen;
    [by apply length_eqb_0 in Hlen|].
  all: wp_steps.
  all: destruct (String.eqb pending ""); wp_steps; wp_rest.
  all: unfold memoriesToUse_update; fold nonBatch; simpl;
    rewrite !elem_of_app, !elem_of_cons; auto 10.
Qed.

(** C4. In the on-demand path, when the visibility filter leaves nothing of
    a non-empty memory list, the candidates are the whole list: the selector
    is called with all memories, never with an empty candidate list. *)
Theorem retrieve_fallback_all_memories env c data mems active pov :
  enabled (extension_settings env) = true →
  chat (getContext env) = Some c → c ≠ [] →
  getOpenVaultData env = Some data →
  default [] (memories_of data) = mems → mems ≠ [] →
  getActiveCharacters env = Val active →
  getPOVContext env = Val pov →
  accessibleMemories data (povCharacters pov) mems = [] →
  memoriesToUse_retrieve data (povCharacters pov) mems = mems ∧
  memoriesToUse_retrieve data (povCharacters pov) mems ≠ [] ∧
  EvSelect mems (visibleChatText c)
           (primaryCharacterOf pov (getContext env))
           active (maxMemoriesPerRetrieval (extension_settings env))
    ∈ trace (retrieveAndInjectContext env).
Proof.
  intros Hen Hchat Hc Hdata Hmems Hne Hact Hpov Hacc.
  assert (Huse : memoriesToUse_retrieve data (povCharacters pov) mems = mems)
    by (by apply orAllMemories_fallback).
  split; [done|]. split; [by rewrite Huse|].
  rewrite <- Huse at 1. by eapply retrieve_calls_selector.
Qed.

(** C3, as the code has it. In the automatic path, when the visibility
    filter accepts some memory and the recency and batch passes remove every
    accepted one, the candidates handed to the selector are the whole memory
    list of the store, not the accessible ones. *)
Theorem update_fallback_all_memories env pending c data mems active pov :
  enabled (extension_settings env) = true →
  automaticMode (extension_settings env) = true →
  chat (getContext env) = Some c → c ≠ [] →
  getOpenVaultData env = Some data →
  default [] (memories_of data) = mems →
  getActiveCharacters env = Val active →
  getPOVContext env = Val pov →
  accessibleMemories data (povCharacters pov) mems ≠ [] →
  nonBatchMemories (last_batch_of data)
    (nonRecentMemories c (accessibleMemories data (povCharacters pov) mems))
    = [] →
  memoriesToUse_update data c (povCharacters pov) mems = mems ∧
  EvSelect mems (recentMessagesWith c pending)
           (primaryCharacterOf pov (getContext env))
           active (maxMemoriesPerRetrieval (extension_settings env))
    ∈ trace (updateInjection env pending).
Proof.
  intros Hen Hauto Hchat Hc Hdata Hmems Hact Hpov Hacc Hnone.
  assert (Hne : mems ≠ []).
  { intros ->. by apply Hacc. }
  assert (Huse : memoriesToUse_update data c (povCharacters pov) mems = mems)
    by (by apply orAllMemories_fallback).
  split; [done|].
  rewrite <- Huse at 1. by eapply update_calls_selector.
Qed.

End FallbackFacts.

(** ** Short-circuit exits and exceptions *)

(** Two readings of the same collaborator agree. *)
Ltac same_reads :=
  repeat match goal with
  | H1 : ?x = Some ?a, H2 : ?x = Some ?b |- _ =>
      assert (b = a) by congruence; subst b; clear H2
  | H1 : ?x = Val ?a, H2 : ?x = Val ?b |- _ =>
      assert (b = a) by congruence; subst b; clear H2
  end.

(** Finish a run that ends by calling the sink. *)
Ltac wp_clear :=
  wp_steps; destruct (safeSetExtensionPrompt _ _); wp_steps; simpl;
  by rewrite ?promptCalls_app, ?promptCalls_logs.

Section ExitFacts.
Context `{JsString}.

(** C9. On each short-circuit exit of the on-demand path (disabled, no chat,
    no store, no memories, no candidates, nothing relevant) the call returns
    null and the injection sink is not invoked. *)
Theorem retrieve_short_circuit_leaves_injection env :
  retrieveShortCircuit env →
  outcome (retrieveAndInjectContext env) = Val None ∧
  promptCalls (trace (retrieveAndInjectContext env)) = [].
Proof.
  intros Hexit.
  change (wp (retrieveAndInjectContext env)
            (λ t r, r = Val None ∧ promptCalls t = [])).
  unfold retrieveAndInjectContext.
  destruct (enabled _) eqn:Hen; simpl negb; cbv iota; [|by wp_steps].
  destruct (noChat _) eqn:Hchat; [by wp_steps|].
  destruct (getOpenVaultData env) as [data|] eqn:Hdata; [|by wp_steps].
  destruct (length _ =? 0)%nat eqn:Hlen; [by wp_steps|].
  unfold retrieveBody. wp_steps.
  destruct (getActiveCharacters env) as [active|e] eqn:Hact; [|by wp_steps].
  wp_steps.
  destruct (getPOVContext env) as [pov|e] eqn:Hpov; [|by wp_steps].
  wp_steps.
  destruct (tooStrict _ _); wp_steps.
  all: destruct (length (orAllMemories _ _) =? 0)%nat eqn:Hcand;
    [by wp_steps|]; wp_steps.
  all: destruct (selectRelevantMemories _ _ _ _ _ _)
    as [[[|m rel]|]|e] eqn:Hsel;
    [by wp_steps| |by wp_steps|by wp_steps].
  all: exfalso; destruct Hexit as [?|?|?|data' ? Hm|data' pov' ? ? Hm
                                  |data' pov' active' r ? ? ? Hr Hnone];
    try congruence; same_reads.
  all: try (rewrite Hm in Hlen; done).
  all: try (unfold memoriesToUse_retrieve in Hm; rewrite Hm in Hcand; done).
  all: unfold retrieveSelection, memoriesToUse_retrieve in Hr;
    rewrite Hsel in Hr; destruct Hnone; congruence.
Qed.

(** X23. The six exits of the automatic path that clear the injection: the
    sink is invoked once, with the empty string. *)
Lemma update_short_circuit_clears env pending :
  updateShortCircuit env pending →
  promptCalls (trace (updateInjection env pending)) = [""].
Proof.
  intros Hexit.
  change (wp (updateInjection env pending) (λ t _, promptCalls t = [""])).
  unfold updateInjection.
  destruct (enabled _) eqn:Hen; simpl negb; simpl orb; cbv iota;
    [|wp_clear].
  destruct (automaticMode _) eqn:Hauto; simpl negb; cbv iota; [|wp_clear].
  destruct (noChat _) eqn:Hchat; [wp_clear|].
  destruct (getOpenVaultData env) as [data|] eqn:Hdata; [|wp_clear].
  destruct (length _ =? 0)%nat eqn:Hlen; [wp_clear|].
  destruct Hexit as [[?|?]|?|?|data' ? Hm|data' pov active ? Hact Hpov Hm
                    |data' pov active r ? Hact Hpov Hr Hnone];
    try congruence; same_reads.
  { rewrite Hm in Hlen. done. }
  all: unfold updateBody; rewrite Hact, Hpov; wp_steps.
  all: destruct (tooStrict _ _); wp_steps.
  all: destruct (length (orAllMemories _ _) =? 0)%nat eqn:Hcand.
  all: try wp_clear.
  all: try (unfold memoriesToUse_update in Hm; rewrite Hm in Hcand; done).
  all: wp_steps.
  all: destruct (String.eqb pending "") eqn:Hpend; wp_steps.
  all: unfold updateSelection, memoriesToUse_update in Hr; rewrite Hr.
  all: destruct Hnone as [-> | ->]; wp_clear.
Qed.

(** X24. The seventh exit: when the formatter returns the empty text, the
    run ends normally and the sink is not invoked at all. *)
Lemma update_empty_format_no_clear env pending :
  updateEmptyFormat env pending →
  outcome (updateInjection env pending) = Val tt ∧
  promptCalls (trace (updateInjection env pending)) = [].
Proof.
  intros (data & pov & active & relevant & rel & Hen & Hauto & Hchat &
          Hdata & Hmems & Hact & Hpov & Hsel & Hrel & Hctx & Hfmt).
  change (wp (updateInjection env pending)
            (λ t r, r = Val tt ∧ promptCalls t = [])).
  unfold updateInjection. rewrite Hen, Hauto, Hchat, Hdata.
  simpl negb; simpl orb; cbv iota.
  replace (length _ =? 0)%nat with false
    by (by destruct (default [] (memories_of data))).
  unfold updateBody; rewrite Hact, Hpov; wp_steps.
  pose proof (orAllMemories_nonempty
    (nonBatchMemories (last_batch_of data)
       (nonRecentMemories (default [] (chat (getContext env)))
          (accessibleMemories data (povCharacters pov)
             (default [] (memories_of data)))))
    _ Hmems) as Hcand.
  destruct (tooStrict _ _); wp_steps.
  all: destruct (length (orAllMemories _ _) =? 0)%nat eqn:Hlen;
    [by apply length_eqb_0 in Hlen|]; wp_steps.
  all: unfold updateSelection, memoriesToUse_update in Hsel.
  all: destruct (String.eqb pending "") eqn:Hpend; wp_steps.
  all: rewrite Hsel; destruct relevant as [|m relevant]; [done|].
  all: wp_steps; rewrite Hctx; wp_steps; rewrite Hfmt; wp_steps.
  all: simpl; wp_steps; simpl.
  all: by rewrite ?promptCalls_app, ?promptCalls_logs.
Qed.



(** C7. Once the memories-nonempty check has passed, an exception thrown by
    any stage of the on-demand path (accessors, selector, relationship
    summarizer, formatter, sink) is caught: it is reported on the console,
    the last status set is [error], and the call returns null. *)
Theorem retrieve_catches_stage_exceptions env data e :
  enabled (extension_settings env) = true →
  noChat (chat (getContext env)) = false →
  getOpenVaultData env = Some data →
  default [] (memories_of data) ≠ [] →
  retrieveStageThrows env data e →
  outcome (retrieveAndInjectContext env) = Val None ∧
  last (statusCalls (trace (retrieveAndInjectContext env))) = Some error ∧
  EvConsoleError e ∈ trace (retrieveAndInjectContext env).
Proof.
  intros Hen Hchat Hdata Hmems Hthrow.
  change (wp (retrieveAndInjectContext env)
            (λ t r, r = Val None ∧ last (statusCalls t) = Some error ∧
                    EvConsoleError e ∈ t)).
  unfold retrieveAndInjectContext. rewrite Hen, Hchat, Hdata.
  simpl negb; cbv iota.
  replace (length _ =? 0)%nat with false
    by (by destruct (default [] (memories_of data))).
  pose proof (orAllMemories_nonempty
    (accessibleMemories data
       (match getPOVContext env with Val pov => povCharacters pov | _ => [] end)
       (default [] (memories_of data))) _ Hmems) as Hcand.
  unfold retrieveBody. wp_steps.
  destruct Hthrow as [Hact|active Hact Hpov|active pov Hact Hpov Hsel
    |active pov relevant Hact Hpov Hsel Hne Hrel
    |active pov relevant rel Hact Hpov Hsel Hne Hrel Hfmt
    |active pov relevant rel text Hact Hpov Hsel Hne Hrel Hfmt Htext Hsink];
    rewrite Hact; wp_steps; try (simpl; by set_solver);
    rewrite Hpov in *; wp_steps; try (simpl; by set_solver).
  all: destruct (tooStrict _ _); wp_steps.
  all: destruct (length (orAllMemories _ _) =? 0)%nat eqn:Hlen;
    [by apply length_eqb_0 in Hlen|]; wp_steps.
  all: unfold retrieveSelection, memoriesToUse_retrieve in Hsel; rewrite Hsel.
  all: try (wp_steps; simpl; by set_solver).
  all: destruct relevant as [|m relevant]; [done|]; wp_steps; rewrite Hrel.
  all: try (wp_steps; simpl; by set_solver).
  all: wp_steps; rewrite Hfmt; try (wp_steps; simpl; by set_solver).
  all: wp_steps; replace (String.eqb text "") with false
    by (symmetry; by apply String.eqb_neq).
  all: unfold injectContext; replace (String.eqb text "") with false
    by (symmetry; by apply String.eqb_neq).
  all: wp_steps; rewrite Hsink; wp_steps; simpl; by set_solver.
Qed.

End ExitFacts.

(** * Further properties of the pipeline *)

(** ** The candidate lists *)

Lemma List_filter_sublist {A} (f : A → bool) (l : list A) :
  List.filter f l `sublist_of` l.
Proof.
  induction l as [|x l IH]; simpl; [constructor|].
  destruct (f x); by constructor.
Qed.

Lemma List_filter_all {A} (f : A → bool) (l : list A) :
  (∀ x, x ∈ l → f x = true) → List.filter f l = l.
Proof.
  induction l as [|x l IH]; intros Hall; simpl; [done|].
  rewrite Hall by apply list_elem_of_here.
  f_equal. apply IH. intros y Hy. by apply Hall, list_elem_of_further.
Qed.

Lemma List_filter_none {A} (f : A → bool) (l : list A) :
  (∀ x, x ∈ l → f x = false) → List.filter f l = [].
Proof.
  induction l as [|x l IH]; intros Hall; simpl; [done|].
  rewrite Hall by apply list_elem_of_here.
  apply IH. intros y Hy. by apply Hall, list_elem_of_further.
Qed.

Lemma List_filter_comm {A} (f g : A → bool) (l : list A) :
  List.filter f (List.filter g l) = List.filter g (List.filter f l).
Proof.
  induction l as [|x l IH]; simpl; [done|].
  destruct (f x) eqn:Hf, (g x) eqn:Hg; simpl; rewrite ?Hf, ?Hg, IH; done.
Qed.

Lemma orAllMemories_keeps filtered memories :
  filtered ≠ [] → orAllMemories filtered memories = filtered.
Proof. unfold orAllMemories, tooStrict. by destruct filtered. Qed.

Section CandidateFacts.
Context `{JsString}.

(** X1. The candidates of either entry point are an order-preserving
    sublist of the stored memories: the filters and the fallbacks neither
    reorder, duplicate nor invent a memory. *)
Theorem candidates_sublist_of_memories data chat povs mems :
  accessibleMemories data povs mems `sublist_of` mems ∧
  memoriesToUse_retrieve data povs mems `sublist_of` mems ∧
  memoriesToUse_update data chat povs mems `sublist_of` mems.
Proof.
  assert (Hacc : accessibleMemories data povs mems `sublist_of` mems)
    by apply List_filter_sublist.
  split; [done|]. split.
  - unfold memoriesToUse_retrieve, orAllMemories.
    by destruct (tooStrict _ _).
  - unfold memoriesToUse_update, orAllMemories.
    destruct (tooStrict _ _); [done|].
    etrans; [apply List_filter_sublist|].
    etrans; [apply List_filter_sublist|done].
Qed.

(** X2. In the on-demand path, as soon as one memory is accessible the
    fallback does not fire and every candidate is visible to the POV
    characters. *)
Theorem retrieve_candidates_visible data povs mems m :
  accessibleMemories data povs mems ≠ [] →
  m ∈ memoriesToUse_retrieve data povs mems →
  m ∈ mems ∧ visibleToPOV data povs m.
Proof.
  intros Hne Hm. unfold memoriesToUse_retrieve in Hm.
  rewrite orAllMemories_keeps in Hm by done.
  unfold accessibleMemories in Hm.
  apply list_elem_of_In, filter_In in Hm as [Hin Hacc].
  split; [by apply list_elem_of_In|by apply isAccessible_true].
Qed.

(** X3. In the automatic path, as soon as one memory survives the three
    filters the fallback does not fire, and every candidate is visible to
    the POV characters, has a source outside the recent window (or none),
    and is not of the last batch. *)
Theorem update_candidates_filtered data chat povs mems m :
  nonBatchMemories (last_batch_of data)
    (nonRecentMemories chat (accessibleMemories data povs mems)) ≠ [] →
  m ∈ memoriesToUse_update data chat povs mems →
  m ∈ mems ∧ visibleToPOV data povs m ∧
  ¬ allSourcesRecent (length chat) m ∧
  ¬ fromLastBatch (last_batch_of data) m.
Proof.
  intros Hne Hm. unfold memoriesToUse_update in Hm.
  rewrite orAllMemories_keeps in Hm by done.
  unfold nonBatchMemories, nonRecentMemories, accessibleMemories in Hm.
  apply list_elem_of_In, filter_In in Hm as [Hm Hbatch].
  apply filter_In in Hm as [Hm Hrecent].
  apply filter_In in Hm as [Hin Hacc].
  split; [by apply list_elem_of_In|].
  split; [by apply isAccessible_true|]. split.
  - intros Hall. apply isNonRecent_false in Hall. congruence.
  - intros Hlast. apply isNonBatch_false in Hlast. congruence.
Qed.

(** X4. Visibility grows with the POV characters: a memory accessible to a
    list of POV names is accessible to every list that contains them. *)
Theorem visibility_monotone_in_pov data povs povs' mems m :
  povs ⊆ povs' →
  m ∈ accessibleMemories data povs mems →
  m ∈ accessibleMemories data povs' mems.
Proof.
  intros Hsub. unfold accessibleMemories.
  rewrite !list_elem_of_In, !filter_In, !isAccessible_true.
  intros [Hin Hvis]. split; [done|].
  destruct Hvis as [(ws & p & w & ? & ? & ?)
                   |[[Hs (cs & p & c & ? & ? & ?)]
                    |(p & st & evs & ? & ?)]].
  - left. exists ws, p, w. auto.
  - right. left. split; [done|]. exists cs, p, c. auto.
  - right. right. exists p, st, evs. auto.
Qed.

(** X5. Visibility depends only on which names are POV characters, not on
    their order or repetition. *)
Theorem visibility_ignores_pov_order data povs povs' mems :
  (∀ p, p ∈ povs ↔ p ∈ povs') →
  accessibleMemories data povs mems = accessibleMemories data povs' mems.
Proof.
  intros Hsame. unfold accessibleMemories. apply filter_ext. intros m.
  destruct (isAccessible (povCharactersLower povs') _ m) eqn:Hacc.
  - apply isAccessible_true. apply isAccessible_true in Hacc.
    destruct Hacc as [(ws & p & w & ? & ? & ?)
                     |[[Hs (cs & p & c & ? & ? & ?)]
                      |(p & st & evs & ? & ?)]].
    + left. exists ws, p, w. by rewrite Hsame.
    + right. left. split; [done|]. exists cs, p, c. by rewrite Hsame.
    + right. right. exists p, st, evs. by rewrite Hsame.
  - destruct (isAccessible (povCharactersLower povs) _ m) eqn:Hacc';
      [|done].
    rewrite <- Hacc. symmetry.
    apply isAccessible_true. apply isAccessible_true in Hacc'.
    destruct Hacc' as [(ws & p & w & ? & ? & ?)
                      |[[Hs (cs & p & c & ? & ? & ?)]
                       |(p & st & evs & ? & ?)]].
    + left. exists ws, p, w. by rewrite <- Hsame.
    + right. left. split; [done|]. exists cs, p, c. by rewrite <- Hsame.
    + right. right. exists p, st, evs. by rewrite <- Hsame.
Qed.

(** X6. While the chat has at most ten messages, every memory taken from
    the chat is recent: when all stored memories are, the exclusion leaves
    nothing and the automatic path hands the whole store to the selector,
    whatever the POV characters may see. *)
Theorem short_chat_falls_back_to_all data chat povs mems :
  (length chat ≤ 10)%nat →
  (∀ m, m ∈ mems → sourcesInChat (length chat) m) →
  nonRecentMemories chat (accessibleMemories data povs mems) = [] ∧
  memoriesToUse_update data chat povs mems = mems.
Proof.
  intros Hshort Hsrc.
  assert (Hnone : nonRecentMemories chat (accessibleMemories data povs mems)
                  = []).
  { apply List_filter_none. intros m Hm.
    apply isNonRecent_false.
    unfold accessibleMemories in Hm.
    apply list_elem_of_In, filter_In in Hm as [Hin _].
    destruct (Hsrc m) as (ids & Hids & Hne & Hall);
      [by apply list_elem_of_In|].
    exists ids. split; [done|]. split; [done|].
    intros i Hi. destruct (Hall i Hi). unfold inRecentWindow. lia. }
  split; [done|].
  unfold memoriesToUse_update. rewrite Hnone.
  by apply orAllMemories_fallback.
Qed.

End CandidateFacts.

(** ** The exclusion passes *)

Lemma indices_seq {A} (l : list A) :
  indices l = Z.of_nat <$> seq 0 (length l).
Proof.
  unfold indices. apply list_eq. intros i.
  rewrite list_lookup_imap, list_lookup_fmap.
  destruct (l !! i) as [x|] eqn:Hl; simpl.
  - apply lookup_lt_Some in Hl. by rewrite lookup_seq_lt.
  - apply lookup_ge_None in Hl. by rewrite lookup_seq_ge.
Qed.

(** X7. The recent window holds exactly the last ten chat indices, or all
    of them when the chat is shorter: its size is [min 10 (chat length)]. *)
Theorem recent_window_size chat :
  size (recentMessageIds chat) = Nat.min 10 (length chat).
Proof.
  unfold recentMessageIds, slice_last.
  rewrite size_list_to_set.
  - rewrite length_drop. unfold indices. rewrite length_imap. lia.
  - rewrite indices_seq.
    eapply sublist_NoDup; [|apply sublist_drop].
    apply NoDup_fmap_2; [intros ? ? ?; lia|apply NoDup_seq].
Qed.

(** X8. The batch pass keeps everything when the last batch id is absent or
    the empty string, and always keeps a memory that has no batch id. *)
Theorem batch_pass_needs_both_ids (l : list Memory) :
  nonBatchMemories None l = l ∧
  nonBatchMemories (Some "") l = l ∧
  (∀ lastBatchId m, batch_id m = None → isNonBatch lastBatchId m = true).
Proof.
  split; [by apply List_filter_all|]. split; [by apply List_filter_all|].
  intros lb m Hm. unfold isNonBatch, strict_eq, truthy_str. rewrite Hm.
  destruct lb as [b|]; [|done].
  rewrite bool_decide_eq_false_2 by done. by rewrite andb_false_r.
Qed.

(** X9. The recency pass and the batch pass commute: which memories remain
    does not depend on the order of the two. *)
Theorem exclusion_passes_commute chat lastBatchId (l : list Memory) :
  nonBatchMemories lastBatchId (nonRecentMemories chat l)
  = nonRecentMemories chat (nonBatchMemories lastBatchId l).
Proof. apply List_filter_comm. Qed.

(** ** The text and the emotion handed on *)

(** X10. A system message, wherever it stands in the chat, leaves the text
    given to the selector unchanged. *)
Theorem system_messages_are_invisible before sys after :
  is_system sys = true →
  visibleChatText (before ++ sys :: after)
  = visibleChatText (before ++ after).
Proof.
  intros Hsys. unfold visibleChatText.
  rewrite !List.filter_app. simpl. by rewrite Hsys.
Qed.

(** X11. The emotion handed to the formatter is never the empty string: it
    is ['neutral'] when the primary character has no state, no emotion or an
    empty one, and the recorded emotion otherwise. *)
Theorem emotion_defaults_to_neutral data primary :
  truthy_str (Some (emotion (emotionalInfoOf data primary))) = true ∧
  (charStateOf data (propertyKey primary) = None →
   emotion (emotionalInfoOf data primary) = "neutral") ∧
  (∀ st, charStateOf data (propertyKey primary) = Some st →
         truthy_str (current_emotion st) = false →
         emotion (emotionalInfoOf data primary) = "neutral") ∧
  (∀ st e, charStateOf data (propertyKey primary) = Some st →
           current_emotion st = Some e → e ≠ "" →
           emotion (emotionalInfoOf data primary) = e).
Proof.
  unfold emotionalInfoOf, or_default, truthy_str. simpl.
  split; [|split; [|split]].
  - destruct (charStateOf data (propertyKey primary)) as [st|]; simpl;
      [|done].
    destruct (current_emotion st) as [e|]; simpl; [|done].
    destruct (String.eqb_spec e ""); simpl; [done|].
    by apply negb_true_iff, String.eqb_neq.
  - by intros ->.
  - intros st -> Hst. simpl.
    destruct (current_emotion st) as [e|]; simpl in *; [|done].
    by destruct (String.eqb e "").
  - intros st e -> He Hne. simpl. rewrite He.
    by destruct (String.eqb_spec e "").
Qed.

(** ** Whole runs of the entry points *)

Lemma omap_logs {A B} (f : Event → option B) (g : A → LogMsg) (l : list A) :
  (∀ msg, f (EvLog msg) = None) →
  omap f (map (λ x, EvLog (g x)) l) = [].
Proof. intros Hf. induction l; simpl; [done|]. by rewrite Hf. Qed.

Lemma length_eqb_0_false {A} (l : list A) :
  (length l =? 0)%nat = false → l ≠ [].
Proof. by destruct l. Qed.

(** Split a run at every test and at every collaborator result. *)
Ltac wp_case :=
  match goal with
  | |- wp (injectContext _ _) _ => unfold injectContext
  | |- wp (if String.eqb ?s ?t then _ else _) _ =>
      destruct (String.eqb_spec s t)
  | |- wp (if ?b then _ else _) _ => destruct b eqn:?
  | |- wp (match ?x with _ => _ end) _ => destruct x eqn:?
  | |- match ?x with _ => _ end => destruct x eqn:?
  end.

Ltac wp_all := repeat first [wp_step; cbv beta | wp_case].

(** Compute what a trace holds of one kind of event. *)
Ltac project :=
  unfold promptCalls, statusCalls, toastCalls, selectCalls, consoleErrors;
  repeat (simpl; rewrite ?omap_app, ?omap_logs by done); simpl.

(** The checks of the on-demand path, then its stages up to the formatter,
    each with its result named. *)
Ltac walk_retrieve env tac :=
  unfold retrieveAndInjectContext;
  destruct (enabled (extension_settings env)) eqn:Hen;
    simpl negb; cbv iota; [|tac];
  destruct (noChat (chat (getContext env))) eqn:Hchat; [tac|];
  destruct (getOpenVaultData env) as [data|] eqn:Hdata; [|tac];
  destruct (length (default [] (memories_of data)) =? 0)%nat eqn:Hmems;
    [tac|];
  apply length_eqb_0_false in Hmems;
  unfold retrieveBody; wp_steps;
  destruct (getActiveCharacters env) as [active|] eqn:Hact; [|tac];
  wp_steps;
  destruct (getPOVContext env) as [pov|] eqn:Hpov; [|tac];
  wp_steps;
  destruct (tooStrict _ _) eqn:Hstrict; wp_steps;
  (destruct (length (orAllMemories _ _) =? 0)%nat eqn:Hcand; [tac|]);
  wp_steps;
  (destruct (selectRelevantMemories env _ _ _ _ _)
     as [[[|m relevant]|]|] eqn:Hsel; [tac| |tac|tac]);
  wp_steps;
  (destruct (getRelationshipContext env _ _ _) as [rel|] eqn:Hrel; [|tac]);
  wp_steps;
  (destruct (formatContextForInjection env _ _ _ _ _) as [text|] eqn:Hfmt;
     [|tac]);
  wp_steps;
  assert (retrieveFormats env data pov active (m :: relevant) rel text)
    as Hreach
    by (unfold retrieveFormats, retrieveSelection, memoriesToUse_retrieve;
        by repeat split).

(** The same for the automatic path. *)
Ltac walk_update env pending tac :=
  unfold updateInjection;
  destruct (enabled (extension_settings env)) eqn:Hen;
    simpl negb; simpl orb; cbv iota; [|tac];
  destruct (automaticMode (extension_settings env)) eqn:Hauto;
    simpl negb; cbv iota; [|tac];
  destruct (noChat (chat (getContext env))) eqn:Hchat; [tac|];
  destruct (getOpenVaultData env) as [data|] eqn:Hdata; [|tac];
  destruct (length (default [] (memories_of data)) =? 0)%nat eqn:Hmems;
    [tac|];
  apply length_eqb_0_false in Hmems;
  unfold updateBody; wp_steps;
  destruct (getActiveCharacters env) as [active|] eqn:Hact; [|tac];
  wp_steps;
  destruct (getPOVContext env) as [pov|] eqn:Hpov; [|tac];
  wp_steps;
  destruct (tooStrict _ _) eqn:Hstrict; wp_steps;
  (destruct (length (orAllMemories _ _) =? 0)%nat eqn:Hcand; [tac|]);
  wp_steps;
  (destruct (String.eqb_spec pending "") as [Hpend|Hpend]); wp_steps;
  (destruct (selectRelevantMemories env _ _ _ _ _)
     as [[[|m relevant]|]|] eqn:Hsel; [tac| |tac|tac]);
  wp_steps;
  (destruct (getRelationshipContext env _ _ _) as [rel|] eqn:Hrel; [|tac]);
  wp_steps;
  (destruct (formatContextForInjection env _ _ _ _ _) as [text|] eqn:Hfmt;
     [|tac]);
  wp_steps;
  assert (updateFormats env pending data pov active (m :: relevant) rel text)
    as Hreach
    by (unfold updateFormats, updateSelection, memoriesToUse_update;
        by repeat split).

(** Close a branch that the hypotheses exclude. *)
Ltac absurd_run :=
  same_reads;
  first
    [ congruence
    | exfalso;
      match goal with
      | Hc : (length _ =? 0)%nat = true |- _ =>
          apply length_eqb_0 in Hc;
          first [ congruence
                | revert Hc; by apply orAllMemories_nonempty ]
      end ].

(** X12. [injectContext] calls the sink exactly once, with the text it was
    given (the empty text included, which clears the injection); it sets no
    status, and it throws exactly when the sink does. *)
Theorem injectContext_calls_sink_once env text :
  promptCalls (trace (injectContext env text)) = [text] ∧
  statusCalls (trace (injectContext env text)) = [] ∧
  ∀ e, outcome (injectContext env text) = Throw e ↔
       safeSetExtensionPrompt env text = Throw e.
Proof.
  change (wp (injectContext env text)
    (λ t r, promptCalls t = [text] ∧ statusCalls t = [] ∧
            ∀ e, r = Throw e ↔ safeSetExtensionPrompt env text = Throw e)).
  unfold injectContext.
  destruct (String.eqb_spec text "") as [->|Hne]; wp_steps.
  - destruct (safeSetExtensionPrompt env "") as [ok|e'] eqn:Hsink;
      wp_steps; (split; [done|]); (split; [done|]);
      intros e; split; congruence.
  - destruct (safeSetExtensionPrompt env text) as [[|]|e'] eqn:Hsink;
      wp_steps; (split; [done|]); (split; [done|]);
      intros e; split; congruence.
Qed.

Section RunFacts.
Context `{JsString}.

(** X13. Whatever the host does, the on-demand path either leaves the sink
    alone or calls it exactly once, with the non-empty text the formatter
    returned: it never clears an injection. *)
Theorem retrieve_sink_only_with_text env :
  promptCalls (trace (retrieveAndInjectContext env)) = [] ∨
  ∃ data pov active relevant rel text,
    retrieveFormats env data pov active relevant rel text ∧
    String.eqb text "" = false ∧
    promptCalls (trace (retrieveAndInjectContext env)) = [text].
Proof.
  change (wp (retrieveAndInjectContext env)
    (λ t _, promptCalls t = [] ∨
       ∃ data pov active relevant rel text,
         retrieveFormats env data pov active relevant rel text ∧
         String.eqb text "" = false ∧ promptCalls t = [text])).
  walk_retrieve env ltac:(wp_all; by left).
  all: destruct (String.eqb text "") eqn:Htext; [wp_all; by left|].
  all: unfold injectContext; rewrite Htext; wp_all.
  all: right; by exists data, pov, active, (m :: relevant), rel, text.
Qed.

(** X14. When the on-demand path reaches the formatter and gets a non-empty
    text, it calls the sink once with that text, shows one success toast with
    the number of selected memories, sets the status to [retrieving] then
    [ready], and returns the selection with the text; this is so whether the
    sink reports success or failure. *)
Theorem retrieve_success env d p act sel rc txt ok :
  retrieveFormats env d p act sel rc txt →
  txt ≠ "" →
  safeSetExtensionPrompt env txt = Val ok →
  outcome (retrieveAndInjectContext env)
    = Val (Some {| memories := sel; context := txt |}) ∧
  promptCalls (trace (retrieveAndInjectContext env)) = [txt] ∧
  toastCalls (trace (retrieveAndInjectContext env))
    = [("success", length sel)] ∧
  statusCalls (trace (retrieveAndInjectContext env)) = [retrieving; ready].
Proof.
  intros (Hen' & Hchat' & Hdata' & Hmems' & Hact' & Hpov' & Hsel' & Hne &
          Hrel' & Hfmt') Htxt Hsink.
  change (wp (retrieveAndInjectContext env)
    (λ t r, r = Val (Some {| memories := sel; context := txt |}) ∧
            promptCalls t = [txt] ∧
            toastCalls t = [("success", length sel)] ∧
            statusCalls t = [retrieving; ready])).
  unfold retrieveSelection, memoriesToUse_retrieve in Hsel'.
  unfold retrieveAndInjectContext. rewrite Hen', Hchat', Hdata'.
  simpl negb; cbv iota.
  replace (length _ =? 0)%nat with false
    by (by destruct (default [] (memories_of d))).
  unfold retrieveBody; rewrite Hact', Hpov'; wp_steps.
  pose proof (orAllMemories_nonempty
    (accessibleMemories d (povCharacters p) (default [] (memories_of d)))
    _ Hmems') as Hcand.
  destruct (tooStrict _ _); wp_steps.
  all: destruct (length (orAllMemories _ _) =? 0)%nat eqn:Hlen;
    [by apply length_eqb_0 in Hlen|]; wp_steps.
  all: rewrite Hsel'; destruct sel as [|m sel]; [done|].
  all: wp_steps; rewrite Hrel'; wp_steps; rewrite Hfmt'; wp_steps.
  all: apply String.eqb_neq in Htxt.
  all: unfold injectContext; rewrite Htxt; wp_steps; rewrite Hsink.
  all: destruct ok; wp_all; by repeat split.
Qed.

(** X15. When the formatter returns the empty text, the on-demand path still
    returns a result (the selection with an empty context), without calling
    the sink and without a toast. *)
Theorem retrieve_empty_format env d p act sel rc :
  retrieveFormats env d p act sel rc "" →
  outcome (retrieveAndInjectContext env)
    = Val (Some {| memories := sel; context := "" |}) ∧
  promptCalls (trace (retrieveAndInjectContext env)) = [] ∧
  toastCalls (trace (retrieveAndInjectContext env)) = [] ∧
  statusCalls (trace (retrieveAndInjectContext env)) = [retrieving; ready].
Proof.
  intros (Hen' & Hchat' & Hdata' & Hmems' & Hact' & Hpov' & Hsel' & Hne &
          Hrel' & Hfmt').
  change (wp (retrieveAndInjectContext env)
    (λ t r, r = Val (Some {| memories := sel; context := "" |}) ∧
            promptCalls t = [] ∧ toastCalls t = [] ∧
            statusCalls t = [retrieving; ready])).
  unfold retrieveSelection, memoriesToUse_retrieve in Hsel'.
  unfold retrieveAndInjectContext. rewrite Hen', Hchat', Hdata'.
  simpl negb; cbv iota.
  replace (length _ =? 0)%nat with false
    by (by destruct (default [] (memories_of d))).
  unfold retrieveBody; rewrite Hact', Hpov'; wp_steps.
  pose proof (orAllMemories_nonempty
    (accessibleMemories d (povCharacters p) (default [] (memories_of d)))
    _ Hmems') as Hcand.
  destruct (tooStrict _ _); wp_steps.
  all: destruct (length (orAllMemories _ _) =? 0)%nat eqn:Hlen;
    [by apply length_eqb_0 in Hlen|]; wp_steps.
  all: rewrite Hsel'; destruct sel as [|m sel]; [done|].
  all: wp_steps; rewrite Hrel'; wp_steps; rewrite Hfmt'; wp_steps.
  all: simpl; wp_all; by repeat split.
Qed.


(** X17. No run of the on-demand path logs ['No memories available']: since
    the memories are checked non-empty before, the fallback leaves a
    candidate and the exit of line 105 is never taken. *)
Theorem retrieve_never_lacks_candidates env :
  Forall (λ msg, msg ≠ Log "No memories available")
    (logCalls (trace (retrieveAndInjectContext env))).
Proof.
  change (wp (retrieveAndInjectContext env)
    (λ t _, Forall (λ msg, msg ≠ Log "No memories available")
              (logCalls t))).
  walk_retrieve env
    ltac:(first [ wp_all; simpl; by repeat constructor | absurd_run ]).
  all: wp_all; simpl; by repeat constructor.
Qed.

(** X18. When the selector is called by the on-demand path, it is called
    once, with [memoriesToUse], which is not empty. *)
Theorem retrieve_selects_once env :
  selectCalls (trace (retrieveAndInjectContext env)) = [] ∨
  ∃ data pov,
    getOpenVaultData env = Some data ∧
    getPOVContext env = Val pov ∧
    memoriesToUse_retrieve data (povCharacters pov)
      (default [] (memories_of data)) ≠ [] ∧
    selectCalls (trace (retrieveAndInjectContext env))
      = [memoriesToUse_retrieve data (povCharacters pov)
           (default [] (memories_of data))].
Proof.
  change (wp (retrieveAndInjectContext env)
    (λ t _, selectCalls t = [] ∨
       ∃ data pov,
         getOpenVaultData env = Some data ∧
         getPOVContext env = Val pov ∧
         memoriesToUse_retrieve data (povCharacters pov)
           (default [] (memories_of data)) ≠ [] ∧
         selectCalls t
           = [memoriesToUse_retrieve data (povCharacters pov)
                (default [] (memories_of data))])).
  walk_retrieve env
    ltac:(wp_all;
          first [ by left
                | right; exists data, pov;
                  split; [done|]; split; [done|];
                  split; [by apply length_eqb_0_false in Hcand|done] ]).
  all: wp_all.
  all: right; exists data, pov.
  all: split; [done|]; split; [done|].
  all: split; [by apply length_eqb_0_false in Hcand|done].
Qed.

(** X19. The automatic path is silent: whatever the host does, it sets no
    status, shows no toast and reports nothing on the console. *)
Theorem update_is_silent env pending :
  statusCalls (trace (updateInjection env pending)) = [] ∧
  toastCalls (trace (updateInjection env pending)) = [] ∧
  consoleErrors (trace (updateInjection env pending)) = [].
Proof.
  change (wp (updateInjection env pending)
    (λ t _, statusCalls t = [] ∧ toastCalls t = [] ∧ consoleErrors t = [])).
  unfold updateInjection, updateBody. wp_all.
  all: project; by repeat split.
Qed.

(** X20. What a run of the automatic path does to the sink is one of: one
    call with the empty string; one call with the non-empty text of the
    formatter; or no call, and then either the formatter returned the empty
    text or the run ended in an exception. *)
Theorem update_sink_cases env pending :
  promptCalls (trace (updateInjection env pending)) = [""] ∨
  (∃ data pov active relevant rel text,
     updateFormats env pending data pov active relevant rel text ∧
     String.eqb text "" = false ∧
     promptCalls (trace (updateInjection env pending)) = [text]) ∨
  (promptCalls (trace (updateInjection env pending)) = [] ∧
   (updateEmptyFormat env pending ∨
    ∃ e, outcome (updateInjection env pending) = Throw e)).
Proof.
  change (wp (updateInjection env pending)
    (λ t r, promptCalls t = [""] ∨
       (∃ data pov active relevant rel text,
          updateFormats env pending data pov active relevant rel text ∧
          String.eqb text "" = false ∧ promptCalls t = [text]) ∨
       (promptCalls t = [] ∧
        (updateEmptyFormat env pending ∨ ∃ e, r = Throw e)))).
  walk_update env pending
    ltac:(wp_all; project;
          first [ by left
                | right; right; split; [done|]; right; by eexists ]).
  all: destruct (String.eqb text "") eqn:Htext.
  all: try (apply String.eqb_eq in Htext; subst text; wp_all; project;
            right; right; split; [done|]; left;
            exists data, pov, active, (m :: relevant), rel;
            unfold updateFormats in Hreach; tauto).
  all: unfold injectContext; rewrite Htext; wp_all; project.
  all: right; left; by exists data, pov, active, (m :: relevant), rel, text.
Qed.

(** X21. When the automatic path reaches the formatter and gets a non-empty
    text, it calls the sink once, with that text, and returns, whether the
    sink reports success or failure. *)
Theorem update_success env pending d p act sel rc txt ok :
  updateFormats env pending d p act sel rc txt →
  txt ≠ "" →
  safeSetExtensionPrompt env txt = Val ok →
  outcome (updateInjection env pending) = Val tt ∧
  promptCalls (trace (updateInjection env pending)) = [txt].
Proof.
  intros (Hen' & Hauto' & Hchat' & Hdata' & Hmems' & Hact' & Hpov' & Hsel' &
          Hne & Hrel' & Hfmt') Htxt Hsink.
  change (wp (updateInjection env pending)
    (λ t r, r = Val tt ∧ promptCalls t = [txt])).
  unfold updateSelection, memoriesToUse_update in Hsel'.
  unfold updateInjection. rewrite Hen', Hauto', Hchat', Hdata'.
  simpl negb; simpl orb; cbv iota.
  replace (length _ =? 0)%nat with false
    by (by destruct (default [] (memories_of d))).
  unfold updateBody; rewrite Hact', Hpov'; wp_steps.
  pose proof (orAllMemories_nonempty
    (nonBatchMemories (last_batch_of d)
       (nonRecentMemories (default [] (chat (getContext env)))
          (accessibleMemories d (povCharacters p)
             (default [] (memories_of d)))))
    _ Hmems') as Hcand.
  destruct (tooStrict _ _); wp_steps.
  all: destruct (length (orAllMemories _ _) =? 0)%nat eqn:Hlen;
    [by apply length_eqb_0 in Hlen|]; wp_steps.
  all: destruct (String.eqb pending ""); wp_steps.
  all: rewrite Hsel'; destruct sel as [|m sel]; [done|].
  all: wp_steps; rewrite Hrel'; wp_steps; rewrite Hfmt'; wp_steps.
  all: apply String.eqb_neq in Htxt.
  all: unfold injectContext; rewrite Htxt; wp_steps; rewrite Hsink.
  all: destruct ok; wp_all; project; by repeat split.
Qed.

(** X22. When the selector is called by the automatic path, it is called
    once, with [memoriesToUse], which is not empty. *)
Theorem update_selects_once env pending :
  selectCalls (trace (updateInjection env pending)) = [] ∨
  ∃ data pov,
    getOpenVaultData env = Some data ∧
    getPOVContext env = Val pov ∧
    memoriesToUse_update data (default [] (chat (getContext env)))
      (povCharacters pov) (default [] (memories_of data)) ≠ [] ∧
    selectCalls (trace (updateInjection env pending))
      = [memoriesToUse_update data (default [] (chat (getContext env)))
           (povCharacters pov) (default [] (memories_of data))].
Proof.
  change (wp (updateInjection env pending)
    (λ t _, selectCalls t = [] ∨
       ∃ data pov,
         getOpenVaultData env = Some data ∧
         getPOVContext env = Val pov ∧
         memoriesToUse_update data (default [] (chat (getContext env)))
           (povCharacters pov) (default [] (memories_of data)) ≠ [] ∧
         selectCalls t
           = [memoriesToUse_update data (default [] (chat (getContext env)))
                (povCharacters pov) (default [] (memories_of data))])).
  walk_update env pending
    ltac:(wp_all; project;
          first [ by left
                | right; exists data, pov;
                  split; [done|]; split; [done|];
                  split; [by apply length_eqb_0_false in Hcand|done] ]).
  all: wp_all; project.
  all: right; exists data, pov.
  all: split; [done|]; split; [done|].
  all: split; [by apply length_eqb_0_false in Hcand|done].
Qed.

(** X26. The automatic path has no handler: once its checks have passed, an
    exception thrown by any of its stages ends the run in that exception; no
    status is set and nothing is reported. *)
Theorem update_stage_exception_propagates env pending data e :
  enabled (extension_settings env) = true →
  automaticMode (extension_settings env) = true →
  noChat (chat (getContext env)) = false →
  getOpenVaultData env = Some data →
  default [] (memories_of data) ≠ [] →
  updateStageThrows env pending data e →
  outcome (updateInjection env pending) = Throw e ∧
  statusCalls (trace (updateInjection env pending)) = [] ∧
  consoleErrors (trace (updateInjection env pending)) = [].
Proof.
  intros Hen Hauto Hchat Hdata Hmems Hthrow.
  change (wp (updateInjection env pending)
    (λ t r, r = Throw e ∧ statusCalls t = [] ∧ consoleErrors t = [])).
  unfold updateInjection. rewrite Hen, Hauto, Hchat, Hdata.
  simpl negb; simpl orb; cbv iota.
  replace (length _ =? 0)%nat with false
    by (by destruct (default [] (memories_of data))).
  unfold updateBody. wp_steps.
  destruct Hthrow as [Hact|active Hact Hpov|active pov Hact Hpov Hsel
    |active pov relevant Hact Hpov Hsel Hne Hrel
    |active pov relevant rel Hact Hpov Hsel Hne Hrel Hfmt
    |active pov relevant rel text Hact Hpov Hsel Hne Hrel Hfmt Htext Hsink];
    rewrite Hact; wp_steps; try done;
    rewrite Hpov in *; wp_steps; try done.
  all: pose proof (orAllMemories_nonempty
    (nonBatchMemories (last_batch_of data)
       (nonRecentMemories (default [] (chat (getContext env)))
          (accessibleMemories data (povCharacters pov)
             (default [] (memories_of data)))))
    _ Hmems) as Hcand.
  all: destruct (tooStrict _ _); wp_steps.
  all: destruct (length (orAllMemories _ _) =? 0)%nat eqn:Hlen;
    [by apply length_eqb_0 in Hlen|]; wp_steps.
  all: unfold updateSelection, memoriesToUse_update in Hsel.
  all: destruct (String.eqb pending ""); wp_steps; rewrite Hsel.
  all: try (project; by repeat split).
  all: destruct relevant as [|m relevant]; [done|]; wp_steps; rewrite Hrel.
  all: try (project; by repeat split).
  all: wp_steps; rewrite Hfmt; try (project; by repeat split).
  all: wp_steps; apply String.eqb_neq in Htext.
  all: unfold injectContext; rewrite Htext; wp_steps; rewrite Hsink.
  all: project; by repeat split.
Qed.

End RunFacts.

(** * Examples on the concrete host *)

#[local] Existing Instance asciiHost.

(** POV name ["Alice"] matches the witness entry ["alice"]. *)
Example alice_matches_lowercase_entry :
  accessibleMemories storeSeenAndSecret ["Alice"] [memSeen; memSecret]
  = [memSeen].
Proof. vm_compute. reflexivity. Qed.

Lemma secret_not_visible_by_involvement_witness :
  involvesPOV ["Alice"] memSecret ∧
  isAccessible (povCharactersLower ["Alice"])
    (knownEventIds storeSecretOnly ["Alice"]) memSecret = false.
Proof.
  split.
  - exists ["Bob"; "Alice"], "Alice", "Alice".
    split; [reflexivity|]. split; [apply list_elem_of_here|].
    split; [apply list_elem_of_further, list_elem_of_here|reflexivity].
  - apply (secret_not_visible_by_involvement storeSecretOnly ["Alice"]
             memSecret).
    + reflexivity.
    + intros (p & st & evs & _ & Hst & _).
      unfold charStateOf in Hst. simpl in Hst.
      rewrite lookup_empty in Hst. discriminate.
    + intros (ws & p & w & Hws & Hp & Hw & Hsame).
      injection Hws as <-.
      apply list_elem_of_singleton in Hp. apply list_elem_of_singleton in Hw.
      subst. vm_compute in Hsame. discriminate.
Defined.

Lemma known_events_lookup_case_sensitive_witness :
  knownEventIds storeLowerKey ["Alice"] = ∅ ∧
  isAccessible (povCharactersLower ["Alice"])
    (knownEventIds storeLowerKey ["Alice"])
    {| id := "ev-told"; summary := None; witnesses := None;
       characters_involved := None; is_secret := false;
       message_ids := None; batch_id := None |} = false.
Proof.
  destruct (known_events_lookup_case_sensitive storeLowerKey
              "Alice" "alice" (stateKnowing ["ev-told"]) ["ev-told"])
    as (Hempty & _ & Hhidden & _).
  - discriminate.
  - reflexivity.
  - vm_compute. reflexivity.
  - reflexivity.
  - vm_compute. reflexivity.
  - split; [exact Hempty|].
    apply Hhidden; [apply list_elem_of_here|reflexivity|reflexivity].
Defined.

Lemma exclusion_passes_iff_witness :
  memSeen ∉ nonBatchMemories (last_batch_of storeSeenAndSecret)
    (nonRecentMemories chatTwo
       (accessibleMemories storeSeenAndSecret ["Alice"]
          [memSeen; memSecret]))
  ↔ allSourcesRecent (length chatTwo) memSeen ∨
    fromLastBatch (last_batch_of storeSeenAndSecret) memSeen.
Proof.
  apply (exclusion_passes_iff storeSeenAndSecret chatTwo ["Alice"]
           [memSeen; memSecret] memSeen).
  vm_compute. apply list_elem_of_here.
Defined.

Lemma retrieve_fallback_all_memories_witness :
  EvSelect [memSecret] "hi" (Some "Alice") ["Alice"; "Bob"] 5
    ∈ trace (retrieveAndInjectContext envSecretOnly).
Proof.
  apply (retrieve_fallback_all_memories envSecretOnly chatOne
           storeSecretOnly [memSecret] ["Alice"; "Bob"] povAlice);
    try reflexivity; discriminate.
Defined.

(** Counterexample to C3 as stated: Alice's only accessible memory is recent, the
    exclusion empties the accessible set, and the candidates are then all
    memories of the store, Bob's secret included. *)
Lemma update_fallback_is_not_accessible_set :
  ¬ (accessibleMemories storeSeenAndSecret ["Alice"] [memSeen; memSecret]
       ≠ [] →
     nonBatchMemories (last_batch_of storeSeenAndSecret)
       (nonRecentMemories chatTwo
          (accessibleMemories storeSeenAndSecret ["Alice"]
             [memSeen; memSecret])) = [] →
     memoriesToUse_update storeSeenAndSecret chatTwo ["Alice"]
       [memSeen; memSecret]
     = accessibleMemories storeSeenAndSecret ["Alice"] [memSeen; memSecret]).
Proof.
  intros Hclaim.
  assert (Heq := Hclaim ltac:(vm_compute; discriminate)
                        ltac:(vm_compute; reflexivity)).
  vm_compute in Heq. discriminate.
Qed.

Lemma update_fallback_all_memories_witness :
  memoriesToUse_update storeSeenAndSecret chatTwo ["Alice"]
    [memSeen; memSecret] = [memSeen; memSecret] ∧
  EvSelect [memSeen; memSecret] (recentMessagesWith chatTwo "")
    (Some "Alice") ["Alice"; "Bob"] 5
    ∈ trace (updateInjection envSeenAndSecret "").
Proof.
  apply (update_fallback_all_memories envSeenAndSecret "" chatTwo
           storeSeenAndSecret [memSeen; memSecret] ["Alice"; "Bob"]
           povAlice);
    try reflexivity; discriminate.
Defined.

Lemma retrieve_short_circuit_leaves_injection_witness :
  outcome (retrieveAndInjectContext envNothingRelevant) = Val None ∧
  promptCalls (trace (retrieveAndInjectContext envNothingRelevant)) = [].
Proof.
  apply (retrieve_short_circuit_leaves_injection envNothingRelevant).
  apply (retrieve_nothing_relevant envNothingRelevant storeScene povAlice
           ["Alice"; "Bob"] (Some [])); try reflexivity.
  by right.
Defined.

Lemma retrieve_catches_stage_exceptions_witness :
  outcome (retrieveAndInjectContext envFormatterThrows) = Val None ∧
  last (statusCalls (trace (retrieveAndInjectContext envFormatterThrows)))
    = Some error ∧
  EvConsoleError "format failed"
    ∈ trace (retrieveAndInjectContext envFormatterThrows).
Proof.
  apply (retrieve_catches_stage_exceptions envFormatterThrows storeScene
           "format failed"); try reflexivity; try discriminate.
  apply (throws_format envFormatterThrows storeScene "format failed"
           ["Alice"; "Bob"] povAlice [memSeen; memTold] "");
    try reflexivity; discriminate.
Defined.

(** A rejected selector promise and a throwing sink end the same way. *)
Example selector_rejection_is_caught :
  retrieveAndInjectContext envSelectorThrows
  = ([EvSetStatus retrieving;
      EvLog (LogPOVFilter true ["Alice"] 3 2);
      EvSelect [memSeen; memTold] "hi" (Some "Alice") ["Alice"; "Bob"] 5;
      EvConsoleError "scoring failed"; EvSetStatus error],
     Val None).
Proof. vm_compute. reflexivity. Qed.

Example sink_exception_is_caught :
  retrieveAndInjectContext envSinkThrows
  = ([EvSetStatus retrieving;
      EvLog (LogPOVFilter true ["Alice"] 3 2);
      EvSelect [memSeen; memTold] "hi" (Some "Alice") ["Alice"; "Bob"] 5;
      EvSetPrompt "[Alice remembers]";
      EvConsoleError "sink failed"; EvSetStatus error],
     Val None).
Proof. vm_compute. reflexivity. Qed.

(** Scenario A of the specification, on both paths. *)
Example scenario_on_demand :
  promptCalls (trace (retrieveAndInjectContext envScene))
    = ["[Alice remembers]"] ∧
  outcome (retrieveAndInjectContext envScene)
    = Val (Some {| memories := [memSeen; memTold];
                   context := "[Alice remembers]" |}).
Proof. vm_compute. split; reflexivity. Qed.

(** C6 fails on the code. With a formatter that returns the empty text the
    automatic path takes its last exit: the run ends normally and the sink is
    never invoked, so an earlier injection stays in place; the six earlier
    exits do invoke it with the empty string. *)
Theorem update_empty_format_keeps_injection :
  updateEmptyFormat envEmptyFormat "" ∧
  outcome (updateInjection envEmptyFormat "") = Val tt ∧
  promptCalls (trace (updateInjection envEmptyFormat "")) = [] ∧
  promptCalls (trace (updateInjection envNothingRelevant "")) = [""].
Proof.
  split; [|vm_compute; repeat split; reflexivity].
  exists storeScene, povAlice, ["Alice"; "Bob"], [memTold], "".
  repeat split; try reflexivity; discriminate.
Qed.

(** C8 fails on the code. The automatic path has no handler: a formatter
    exception ends [updateInjection] in that exception, where the on-demand
    path, on the same host, returns null. *)
Theorem update_propagates_stage_exception :
  outcome (updateInjection envFormatterThrows "") = Throw "format failed" ∧
  promptCalls (trace (updateInjection envFormatterThrows "")) = [] ∧
  outcome (retrieveAndInjectContext envFormatterThrows) = Val None.
Proof. vm_compute. repeat split; reflexivity. Qed.

(** ** Instances of the further properties *)

Lemma retrieve_candidates_visible_witness :
  memSeen ∈ [memSeen; memSecret; memTold] ∧
  visibleToPOV storeScene ["Alice"] memSeen.
Proof.
  apply (retrieve_candidates_visible storeScene ["Alice"]
           [memSeen; memSecret; memTold] memSeen).
  - vm_compute. discriminate.
  - vm_compute. apply list_elem_of_here.
Defined.

Lemma update_candidates_filtered_witness :
  memTold ∈ [memSeen; memSecret; memTold] ∧
  visibleToPOV storeScene ["Alice"] memTold ∧
  ¬ allSourcesRecent (length chatOne) memTold ∧
  ¬ fromLastBatch (last_batch_of storeScene) memTold.
Proof.
  apply (update_candidates_filtered storeScene chatOne ["Alice"]
           [memSeen; memSecret; memTold] memTold).
  - vm_compute. discriminate.
  - vm_compute. apply list_elem_of_here.
Defined.

Lemma visibility_monotone_in_pov_witness :
  memSeen ∈ accessibleMemories storeScene ["Bob"; "Alice"]
              [memSeen; memSecret; memTold].
Proof.
  apply (visibility_monotone_in_pov storeScene ["Alice"] ["Bob"; "Alice"]
           [memSeen; memSecret; memTold] memSeen).
  - intros x Hx. apply list_elem_of_singleton in Hx. subst x.
    apply list_elem_of_further, list_elem_of_here.
  - vm_compute. apply list_elem_of_here.
Defined.

Lemma visibility_ignores_pov_order_witness :
  accessibleMemories storeScene ["Alice"; "Bob"] [memSeen; memSecret; memTold]
  = accessibleMemories storeScene ["Bob"; "Alice"; "Bob"]
      [memSeen; memSecret; memTold].
Proof.
  apply (visibility_ignores_pov_order storeScene ["Alice"; "Bob"]
           ["Bob"; "Alice"; "Bob"] [memSeen; memSecret; memTold]).
  intros x. rewrite !elem_of_cons, elem_of_nil. tauto.
Defined.

Lemma short_chat_falls_back_to_all_witness :
  nonRecentMemories chatTwo
    (accessibleMemories storeSeenAndSecret ["Alice"] [memSeen; memSecret])
    = [] ∧
  memoriesToUse_update storeSeenAndSecret chatTwo ["Alice"]
    [memSeen; memSecret] = [memSeen; memSecret].
Proof.
  apply (short_chat_falls_back_to_all storeSeenAndSecret chatTwo ["Alice"]
           [memSeen; memSecret]).
  - simpl. lia.
  - intros m Hm.
    apply elem_of_cons in Hm as [->|Hm];
      [|apply list_elem_of_singleton in Hm as ->].
    + exists [0]. split; [reflexivity|]. split; [discriminate|].
      intros i Hi. apply list_elem_of_singleton in Hi. subst i. simpl. lia.
    + exists [1]. split; [reflexivity|]. split; [discriminate|].
      intros i Hi. apply list_elem_of_singleton in Hi. subst i. simpl. lia.
Defined.

Lemma system_messages_are_invisible_witness :
  visibleChatText
    ([message "hi"] ++ {| is_system := true; mes := "Bob joined" |}
                    :: [message "hello"])
  = visibleChatText ([message "hi"] ++ [message "hello"]).
Proof.
  apply (system_messages_are_invisible [message "hi"]
           {| is_system := true; mes := "Bob joined" |} [message "hello"]).
  reflexivity.
Defined.

Lemma retrieve_success_witness :
  outcome (retrieveAndInjectContext envSinkRefuses)
    = Val (Some {| memories := [memSeen; memTold];
                   context := "[Alice remembers]" |}) ∧
  promptCalls (trace (retrieveAndInjectContext envSinkRefuses))
    = ["[Alice remembers]"] ∧
  toastCalls (trace (retrieveAndInjectContext envSinkRefuses))
    = [("success", length [memSeen; memTold])] ∧
  statusCalls (trace (retrieveAndInjectContext envSinkRefuses))
    = [retrieving; ready].
Proof.
  apply (retrieve_success envSinkRefuses storeScene povAlice
           ["Alice"; "Bob"] [memSeen; memTold] "" "[Alice remembers]"
           false).
  - repeat split; try reflexivity; discriminate.
  - discriminate.
  - reflexivity.
Defined.

Lemma retrieve_empty_format_witness :
  outcome (retrieveAndInjectContext envEmptyFormat)
    = Val (Some {| memories := [memSeen; memTold]; context := "" |}) ∧
  promptCalls (trace (retrieveAndInjectContext envEmptyFormat)) = [] ∧
  toastCalls (trace (retrieveAndInjectContext envEmptyFormat)) = [] ∧
  statusCalls (trace (retrieveAndInjectContext envEmptyFormat))
    = [retrieving; ready].
Proof.
  apply (retrieve_empty_format envEmptyFormat storeScene povAlice
           ["Alice"; "Bob"] [memSeen; memTold] "").
  repeat split; try reflexivity; discriminate.
Defined.

Lemma update_success_witness :
  outcome (updateInjection envScene "is Bob here?") = Val tt ∧
  promptCalls (trace (updateInjection envScene "is Bob here?"))
    = ["[Alice remembers]"].
Proof.
  apply (update_success envScene "is Bob here?" storeScene povAlice
           ["Alice"; "Bob"] [memTold] "" "[Alice remembers]" true).
  - repeat split; try reflexivity; discriminate.
  - discriminate.
  - reflexivity.
Defined.

Lemma update_short_circuit_clears_witness :
  promptCalls (trace (updateInjection envNothingRelevant "")) = [""].
Proof.
  apply (update_short_circuit_clears envNothingRelevant "").
  apply (update_nothing_relevant envNothingRelevant "" storeScene povAlice
           ["Alice"; "Bob"] (Some [])); try reflexivity.
  by right.
Defined.

Lemma update_empty_format_no_clear_witness :
  outcome (updateInjection envEmptyFormat "") = Val tt ∧
  promptCalls (trace (updateInjection envEmptyFormat "")) = [].
Proof.
  apply (update_empty_format_no_clear envEmptyFormat "").
  exists storeScene, povAlice, ["Alice"; "Bob"], [memTold], "".
  repeat split; try reflexivity; discriminate.
Defined.

Lemma update_stage_exception_propagates_witness :
  outcome (updateInjection envSelectorThrows "") = Throw "scoring failed" ∧
  statusCalls (trace (updateInjection envSelectorThrows "")) = [] ∧
  consoleErrors (trace (updateInjection envSelectorThrows "")) = [].
Proof.
  apply (update_stage_exception_propagates envSelectorThrows ""
           storeScene "scoring failed"); try reflexivity; try discriminate.
  apply (update_throws_select envSelectorThrows "" storeScene
           "scoring failed" ["Alice"; "Bob"] povAlice); reflexivity.
Defined.
